(** * Notepad Pro: the note collection state manager

    A shallow embedding of [types.ts], [utils/storage.ts] and the state
    handlers of [App.tsx], with the properties of the note collection, the
    projected view and the backup import proved over it.

    Conventions.
    - A JavaScript number that holds a timestamp is an integer ([Z]).
    - A JavaScript string is a [string]; [includes] is substring search on it.
    - Platform functions the handlers call ([JSON.parse],
      [String.prototype.toLowerCase], [String.prototype.localeCompare]) are
      variables of the section [App]; [Reference] gives one instance of each.
    - [Date.now()] reads an explicit clock, once per call in the source.
    - [crypto.randomUUID()] and the answer to [window.confirm] are inputs of
      the handler that asks for them. *)

From Stdlib Require Import ZArith List String Ascii Bool Permutation Sorted Lia.
From Stdlib Require OrderedTypeEx DecimalString.
Import ListNotations.

Local Open Scope string_scope.
Local Open Scope Z_scope.
Local Open Scope list_scope.

(** ** types.ts *)

Record Note := mkNote {
  id : string;
  title : string;
  content : string;
  isPinned : bool;
  createdAt : Z;
  lastModified : Z;
  color : option string
}.

Record UserProfile := mkUserProfile {
  name : string;
  avatar : option string
}.

Inductive SortOption :=
| CREATED_DESC
| CREATED_ASC
| MODIFIED_DESC
| TITLE_ASC.

Inductive ViewState :=
| View_list
| View_editor
| View_profile
| View_settings.

Definition COLORS : list string :=
  [ "bg-white"; "bg-red-50"; "bg-blue-50"; "bg-green-50";
    "bg-yellow-50"; "bg-purple-50"; "bg-pink-50" ].

(** [Partial<Note>]: every field of [Note] is optional; [None] is an absent
    key.  [color] is itself optional in [Note], so a present key may carry
    no colour. *)
Record PartialNote := mkPartialNote {
  p_id : option string;
  p_title : option string;
  p_content : option string;
  p_isPinned : option bool;
  p_createdAt : option Z;
  p_lastModified : option Z;
  p_color : option (option string)
}.

Set Warnings "-register-all".

(** ** Run-time values

    What [JSON.parse] returns and what [localStorage] hands back after
    parsing: a value of any shape. *)
Inductive JsonValue :=
| JNull
| JBool (b : bool)
| JNumber (z : Z)
| JString (s : string)
| JArray (items : list JsonValue)
| JObject (members : list (string * JsonValue)).

Definition Array_isArray (v : JsonValue) : bool :=
  match v with
  | JArray _ => true
  | _ => false
  end.

(** JavaScript truthiness of a [string | null]: [!data] holds for [null] and
    for the empty string. *)
Definition truthy (data : option string) : bool :=
  match data with
  | None => false
  | Some s => negb (s =? "")%string
  end.

(** ** localStorage *)

Definition Storage := string -> option string.

Definition getItem (st : Storage) (key : string) : option string := st key.

Definition removeItem (key : string) (st : Storage) : Storage :=
  fun k => if (k =? key)%string then None else st k.

Definition emptyStorage : Storage := fun _ => None.

Definition STORAGE_KEY : string := "notepad_pro_notes".
Definition PROFILE_KEY : string := "notepad_pro_profile".

(** ** The clock

    [reading c k] is what the [k]-th call of [Date.now()] returns;
    [elapsed c] counts the calls made so far. *)
Record Clock := mkClock {
  elapsed : nat;
  reading : nat -> Z
}.

Definition Date_now (c : Clock) : Z * Clock :=
  (reading c (elapsed c), mkClock (S (elapsed c)) (reading c)).

(** ** String helpers of the platform *)

Fixpoint startsWith (sub s : string) : bool :=
  match sub, s with
  | EmptyString, _ => true
  | String _ _, EmptyString => false
  | String a sub', String b s' => Ascii.eqb a b && startsWith sub' s'
  end.

(** [s.includes(sub)] *)
Fixpoint includes (s sub : string) : bool :=
  startsWith sub s
  || match s with
     | EmptyString => false
     | String _ s' => includes s' sub
     end.

(** ** Array.prototype.sort

    The sort of ECMAScript 2019 and later is stable; for a consistent
    comparator its result is the one stable sorted arrangement, computed here
    by insertion.  [x] keeps its place before every element it does not
    compare greater than. *)
Section ArraySort.
Context {A : Type}.
Variable compareFn : A -> A -> Z.

Fixpoint sort_insert (x : A) (l : list A) : list A :=
  match l with
  | [] => [x]
  | y :: l' =>
      if compareFn x y <=? 0 then x :: y :: l' else y :: sort_insert x l'
  end.

Fixpoint Array_sort (l : list A) : list A :=
  match l with
  | [] => []
  | x :: l' => sort_insert x (Array_sort l')
  end.

(** The comparator lets [a] stand before [b]. *)
Definition precedes (a b : A) : Prop := compareFn a b <= 0.
End ArraySort.

(** ** App.tsx: state *)

Record AppState := mkAppState {
  notes : list Note;
  profile : UserProfile;
  viewState : ViewState;
  currentNoteId : option string;
  searchQuery : string;
  sortBy : SortOption
}.

(** The state of [App] together with what its handlers reach outside it. *)
Record World := mkWorld {
  app : AppState;
  localStorage : Storage;
  clock : Clock;
  alerts : list string
}.

Definition setNotes (l : list Note) (s : AppState) : AppState :=
  mkAppState l (profile s) (viewState s) (currentNoteId s) (searchQuery s) (sortBy s).

Definition setProfile (p : UserProfile) (s : AppState) : AppState :=
  mkAppState (notes s) p (viewState s) (currentNoteId s) (searchQuery s) (sortBy s).

Definition setViewState (v : ViewState) (s : AppState) : AppState :=
  mkAppState (notes s) (profile s) v (currentNoteId s) (searchQuery s) (sortBy s).

Definition setCurrentNoteId (c : option string) (s : AppState) : AppState :=
  mkAppState (notes s) (profile s) (viewState s) c (searchQuery s) (sortBy s).

Definition withApp (f : AppState -> AppState) (w : World) : World :=
  mkWorld (f (app w)) (localStorage w) (clock w) (alerts w).

Definition alert (msg : string) (w : World) : World :=
  mkWorld (app w) (localStorage w) (clock w) (alerts w ++ [msg]).

(** [useState] initial values *)
Definition initialState : AppState :=
  mkAppState [] (mkUserProfile "Guest" None) View_list None "" MODIFIED_DESC.

Definition ids (l : list Note) : list string := map id l.

(** ** App.tsx: handlers that need no platform function *)

(** [{ ...n, ...updates, lastModified: now }]: a [lastModified] key of
    [updates] is overridden by the one written last. *)
Definition applyUpdates (n : Note) (updates : PartialNote) (now : Z) : Note :=
  mkNote
    (match p_id updates with Some v => v | None => id n end)
    (match p_title updates with Some v => v | None => title n end)
    (match p_content updates with Some v => v | None => content n end)
    (match p_isPinned updates with Some v => v | None => isPinned n end)
    (match p_createdAt updates with Some v => v | None => createdAt n end)
    now
    (match p_color updates with Some v => v | None => color n end).

(** [{ ...n, isPinned: !n.isPinned }] *)
Definition flipPin (n : Note) : Note :=
  mkNote (id n) (title n) (content n) (negb (isPinned n))
         (createdAt n) (lastModified n) (color n).

Definition handleCreateNote (uuid : string) (w : World) : World :=
  let (t1, c1) := Date_now (clock w) in
  let (t2, c2) := Date_now c1 in
  let newNote := mkNote uuid "" "" false t1 t2 (nth_error COLORS 0) in
  let s := app w in
  mkWorld
    (setViewState View_editor
       (setCurrentNoteId (Some (id newNote))
          (setNotes (newNote :: notes s) s)))
    (localStorage w) c2 (alerts w).

(** [prev.map(n => n.id === currentNoteId ? {...} : n)], the clock read once
    for each note that matches. *)
Fixpoint updateNotes (cur : string) (updates : PartialNote) (c : Clock)
    (prev : list Note) : list Note * Clock :=
  match prev with
  | [] => ([], c)
  | n :: rest =>
      if (id n =? cur)%string then
        let (now, c1) := Date_now c in
        let (rest', c2) := updateNotes cur updates c1 rest in
        (applyUpdates n updates now :: rest', c2)
      else
        let (rest', c2) := updateNotes cur updates c rest in
        (n :: rest', c2)
  end.

Definition handleUpdateNote (updates : PartialNote) (w : World) : World :=
  if negb (truthy (currentNoteId (app w))) then w
  else
    match currentNoteId (app w) with
    | None => w
    | Some cur =>
        let (l, c) := updateNotes cur updates (clock w) (notes (app w)) in
        mkWorld (setNotes l (app w)) (localStorage w) c (alerts w)
    end.

Definition handleDeleteNote (target : string) (w : World) : World :=
  withApp (fun s =>
    setCurrentNoteId None
      (setViewState View_list
         (setNotes (filter (fun n => negb (id n =? target)%string) (notes s)) s)))
    w.

Definition handleTogglePin (target : string) (w : World) : World :=
  withApp (fun s =>
    setNotes (map (fun n => if (id n =? target)%string then flipPin n else n)
                  (notes s)) s)
    w.

Definition handleClearAll (isConfirmed : bool) (w : World) : World :=
  if isConfirmed then
    let st := removeItem PROFILE_KEY (removeItem STORAGE_KEY (localStorage w)) in
    let s :=
      setCurrentNoteId None
        (setViewState View_list
           (setProfile (mkUserProfile "Guest User" None)
              (setNotes [] (app w)))) in
    alert "System Reset Complete. All data has been cleared."
      (mkWorld s st (clock w) (alerts w))
  else w.

(** [onNoteClick] of the list view *)
Definition handleNoteClick (target : string) (w : World) : World :=
  withApp (fun s => setViewState View_editor (setCurrentNoteId (Some target) s)) w.

(** ** Handlers and queries that call platform functions *)

Section App.
(** [JSON.parse]: [None] when it throws. *)
Variable JSON_parse : string -> option JsonValue.
(** The view TypeScript takes of a run-time value stored at type [Note];
    the source checks nothing about it. *)
Variable asNote : JsonValue -> Note.
Variable toLowerCase : string -> string.
Variable localeCompare : string -> string -> Z.

(** *** utils/storage.ts *)

Definition loadNotes (st : Storage) : JsonValue :=
  let data := getItem st STORAGE_KEY in
  if negb (truthy data) then JArray []
  else
    match data with
    | None => JArray []
    | Some text =>
        match JSON_parse text with
        | Some v => v
        | None => JArray []
        end
    end.

Definition loadProfile (st : Storage) : JsonValue :=
  let data := getItem st PROFILE_KEY in
  if negb (truthy data) then JObject [("name", JString "Guest"); ("avatar", JNull)]
  else
    match data with
    | None => JObject [("name", JString "Guest"); ("avatar", JNull)]
    | Some text =>
        match JSON_parse text with
        | Some v => v
        | None => JObject [("name", JString "Guest"); ("avatar", JNull)]
        end
    end.

(** *** The projected view *)

Definition matchesQuery (q : string) (n : Note) : bool :=
  includes (toLowerCase (title n)) (toLowerCase q)
  || includes (toLowerCase (content n)) (toLowerCase q).

Definition compareNotes (by_ : SortOption) (a b : Note) : Z :=
  if isPinned a && negb (isPinned b) then -1
  else if negb (isPinned a) && isPinned b then 1
  else
    match by_ with
    | CREATED_DESC => createdAt b - createdAt a
    | CREATED_ASC => createdAt a - createdAt b
    | MODIFIED_DESC => lastModified b - lastModified a
    | TITLE_ASC => localeCompare (title a) (title b)
    end.

Definition filteredNotes (l : list Note) (q : string) (by_ : SortOption)
    : list Note :=
  let result := filter (matchesQuery q) l in
  Array_sort (compareNotes by_) result.

(** *** Import

    [file] is the text of the chosen file, [None] when no file was chosen. *)
Definition handleImport (file : option string) (w : World) : World :=
  match file with
  | None => w
  | Some text =>
      match JSON_parse text with
      | Some importedNotes =>
          match importedNotes with
          | JArray items =>
              alert "Notes imported successfully!"
                (withApp (fun s => setNotes (map asNote items ++ notes s) s) w)
          | _ => alert "Invalid backup format." w
          end
      | None => alert "Could not read backup file." w
      end
  end.

(** *** Sequences of user intents *)

Inductive Intent :=
| Create (uuid : string)
| NoteClick (target : string)
| Update (updates : PartialNote)
| Delete (target : string)
| TogglePin (target : string)
| ClearAll (isConfirmed : bool)
| Import (file : option string).

Definition dispatch (i : Intent) (w : World) : World :=
  match i with
  | Create uuid => handleCreateNote uuid w
  | NoteClick target => handleNoteClick target w
  | Update updates => handleUpdateNote updates w
  | Delete target => handleDeleteNote target w
  | TogglePin target => handleTogglePin target w
  | ClearAll isConfirmed => handleClearAll isConfirmed w
  | Import file => handleImport file w
  end.

Fixpoint run (is_ : list Intent) (w : World) : World :=
  match is_ with
  | [] => w
  | i :: rest => run rest (dispatch i w)
  end.

End App.

(** ** One instance of the platform functions

    Enough of each to run the handlers on concrete inputs: ASCII case
    folding, code-unit order for [localeCompare], and a reader for the JSON
    that backups are made of (integers, strings with the common escapes,
    arrays, objects, literals).  The general theorems below do not depend on
    it. *)
Module Reference.

Definition quote : ascii := "034"%char.
Definition backslash : ascii := "092"%char.

Definition lowerChar (c : ascii) : ascii :=
  let n := nat_of_ascii c in
  if ((65 <=? n) && (n <=? 90))%nat then ascii_of_nat (n + 32) else c.

Fixpoint toLowerCase (s : string) : string :=
  match s with
  | EmptyString => EmptyString
  | String c s' => String (lowerChar c) (toLowerCase s')
  end.

Definition localeCompare (a b : string) : Z :=
  match String.compare a b with
  | Lt => -1
  | Eq => 0
  | Gt => 1
  end.

Definition isSpace (c : ascii) : bool :=
  let n := nat_of_ascii c in
  ((n =? 32) || (n =? 9) || (n =? 10) || (n =? 13))%nat.

Definition isDigit (c : ascii) : bool :=
  let n := nat_of_ascii c in ((48 <=? n) && (n <=? 57))%nat.

Fixpoint skipSpace (cs : list ascii) : list ascii :=
  match cs with
  | c :: r => if isSpace c then skipSpace r else cs
  | [] => []
  end.

Fixpoint stripPrefix (lit cs : list ascii) : option (list ascii) :=
  match lit, cs with
  | [], _ => Some cs
  | a :: lit', c :: r => if Ascii.eqb a c then stripPrefix lit' r else None
  | _ :: _, [] => None
  end.

Fixpoint readDigits (acc : Z) (cs : list ascii) : Z * list ascii :=
  match cs with
  | c :: r =>
      if isDigit c
      then readDigits (10 * acc + Z.of_nat (nat_of_ascii c - 48)) r
      else (acc, cs)
  | [] => (acc, [])
  end.

(** An integer without a leading zero. *)
Definition readNatural (cs : list ascii) : option (Z * list ascii) :=
  match cs with
  | c :: r =>
      if negb (isDigit c) then None
      else if Ascii.eqb c "0" && match r with d :: _ => isDigit d | [] => false end
      then None
      else Some (readDigits 0 cs)
  | [] => None
  end.

Definition unescape (e : ascii) : option ascii :=
  if Ascii.eqb e quote then Some quote
  else if Ascii.eqb e backslash then Some backslash
  else if Ascii.eqb e "/" then Some "/"%char
  else if Ascii.eqb e "n" then Some "010"%char
  else if Ascii.eqb e "t" then Some "009"%char
  else if Ascii.eqb e "r" then Some "013"%char
  else None.

(** The characters after an opening quote, up to the closing one. *)
Fixpoint readString (cs : list ascii) : option (string * list ascii) :=
  match cs with
  | [] => None
  | c :: r =>
      if Ascii.eqb c quote then Some (EmptyString, r)
      else if Ascii.eqb c backslash then
        match r with
        | e :: r' =>
            match unescape e, readString r' with
            | Some c', Some (s, rest) => Some (String c' s, rest)
            | _, _ => None
            end
        | [] => None
        end
      else
        match readString r with
        | Some (s, rest) => Some (String c s, rest)
        | None => None
        end
  end.

Fixpoint readValue (fuel : nat) (cs : list ascii) {struct fuel}
    : option (JsonValue * list ascii) :=
  match fuel with
  | O => None
  | S f =>
      match skipSpace cs with
      | [] => None
      | c :: r =>
          if Ascii.eqb c quote then
            match readString r with
            | Some (s, rest) => Some (JString s, rest)
            | None => None
            end
          else if Ascii.eqb c "[" then
            match skipSpace r with
            | d :: r' =>
                if Ascii.eqb d "]" then Some (JArray [], r')
                else
                  match readElements f r with
                  | Some (vs, rest) => Some (JArray vs, rest)
                  | None => None
                  end
            | [] => None
            end
          else if Ascii.eqb c "{" then
            match skipSpace r with
            | d :: r' =>
                if Ascii.eqb d "}" then Some (JObject [], r')
                else
                  match readMembers f r with
                  | Some (ms, rest) => Some (JObject ms, rest)
                  | None => None
                  end
            | [] => None
            end
          else if Ascii.eqb c "-" then
            match readNatural r with
            | Some (z, rest) => Some (JNumber (- z), rest)
            | None => None
            end
          else if isDigit c then
            match readNatural (c :: r) with
            | Some (z, rest) => Some (JNumber z, rest)
            | None => None
            end
          else
            match stripPrefix (list_ascii_of_string "null") (c :: r),
                  stripPrefix (list_ascii_of_string "true") (c :: r),
                  stripPrefix (list_ascii_of_string "false") (c :: r) with
            | Some rest, _, _ => Some (JNull, rest)
            | _, Some rest, _ => Some (JBool true, rest)
            | _, _, Some rest => Some (JBool false, rest)
            | _, _, _ => None
            end
      end
  end
with readElements (fuel : nat) (cs : list ascii) {struct fuel}
    : option (list JsonValue * list ascii) :=
  match fuel with
  | O => None
  | S f =>
      match readValue f cs with
      | Some (v, r) =>
          match skipSpace r with
          | d :: r' =>
              if Ascii.eqb d "," then
                match readElements f r' with
                | Some (vs, rest) => Some (v :: vs, rest)
                | None => None
                end
              else if Ascii.eqb d "]" then Some ([v], r')
              else None
          | [] => None
          end
      | None => None
      end
  end
with readMembers (fuel : nat) (cs : list ascii) {struct fuel}
    : option (list (string * JsonValue) * list ascii) :=
  match fuel with
  | O => None
  | S f =>
      match skipSpace cs with
      | q :: r =>
          if negb (Ascii.eqb q quote) then None
          else
            match readString r with
            | Some (k, r1) =>
                match skipSpace r1 with
                | colon :: r2 =>
                    if negb (Ascii.eqb colon ":") then None
                    else
                      match readValue f r2 with
                      | Some (v, r3) =>
                          match skipSpace r3 with
                          | d :: r4 =>
                              if Ascii.eqb d "," then
                                match readMembers f r4 with
                                | Some (ms, rest) => Some ((k, v) :: ms, rest)
                                | None => None
                                end
                              else if Ascii.eqb d "}" then Some ([(k, v)], r4)
                              else None
                          | [] => None
                          end
                      | None => None
                      end
                | [] => None
                end
            | None => None
            end
      | [] => None
      end
  end.

Definition JSON_parse (text : string) : option JsonValue :=
  let cs := list_ascii_of_string text in
  match readValue (2 * List.length cs + 2) cs with
  | Some (v, rest) =>
      match skipSpace rest with
      | [] => Some v
      | _ :: _ => None
      end
  | None => None
  end.

(** Property lookup: the last member of that name, as [JSON.parse] keeps
    it. *)
Fixpoint member (k : string) (ms : list (string * JsonValue))
    : option JsonValue :=
  match ms with
  | [] => None
  | (k', v) :: rest =>
      match member k rest with
      | Some v' => Some v'
      | None => if (k' =? k)%string then Some v else None
      end
  end.

Definition property (k : string) (v : JsonValue) : option JsonValue :=
  match v with
  | JObject ms => member k ms
  | _ => None
  end.

(** A record of [Note] fields read off an object, field by field. *)
Definition asNote (v : JsonValue) : Note :=
  mkNote
    (match property "id" v with Some (JString s) => s | _ => "" end)
    (match property "title" v with Some (JString s) => s | _ => "" end)
    (match property "content" v with Some (JString s) => s | _ => "" end)
    (match property "isPinned" v with Some (JBool b) => b | _ => false end)
    (match property "createdAt" v with Some (JNumber z) => z | _ => 0 end)
    (match property "lastModified" v with Some (JNumber z) => z | _ => 0 end)
    (match property "color" v with Some (JString s) => Some s | _ => None end).

(** [text] between double quotes. *)
Definition quoted (text : string) : string :=
  String quote (text ++ String quote EmptyString)%string.

End Reference.

(** ** Vocabulary of the properties *)

(** The outcomes the import reports to the user. *)
Definition InvalidFormat : string := "Invalid backup format.".
Definition ParseFailure : string := "Could not read backup file.".

(** [w'] is [w] after one more message to the user. *)
Definition signals (msg : string) (w w' : World) : Prop :=
  alerts w' = alerts w ++ [msg].

(** [sub] occurs in [s] as a contiguous run of characters. *)
Definition occursIn (sub s : string) : Prop :=
  exists pre post, s = (pre ++ sub ++ post)%string.

(** What one pass of the [map] of [handleUpdateNote] does: a note whose id is
    not [cur] is kept; one whose id is [cur] is rebuilt with a reading the
    clock gave during the pass. *)
Definition editedBy (cur : string) (updates : PartialNote) (c c' : Clock)
    (n n' : Note) : Prop :=
  if (id n =? cur)%string
  then exists k, (elapsed c <= k < elapsed c')%nat
                 /\ n' = applyUpdates n updates (reading c k)
  else n' = n.

Section Vocabulary.
Variable JSON_parse : string -> option JsonValue.
Variable asNote : JsonValue -> Note.
Variable toLowerCase : string -> string.
Variable localeCompare : string -> string -> Z.

(** [q] occurs in [s] when the case of letters is ignored. *)
Definition occursIgnoringCase (q s : string) : Prop :=
  occursIn (toLowerCase q) (toLowerCase s).

(** [a] may stand before [b] under the sort key of [by_]. *)
Definition keyOrder (by_ : SortOption) (a b : Note) : Prop :=
  match by_ with
  | CREATED_DESC => createdAt b <= createdAt a
  | CREATED_ASC => createdAt a <= createdAt b
  | MODIFIED_DESC => lastModified b <= lastModified a
  | TITLE_ASC => localeCompare (title a) (title b) <= 0
  end.

(** [a] and [b] have equal sort keys under [by_]. *)
Definition sameKey (by_ : SortOption) (a b : Note) : bool :=
  match by_ with
  | CREATED_DESC | CREATED_ASC => createdAt a =? createdAt b
  | MODIFIED_DESC => lastModified a =? lastModified b
  | TITLE_ASC => localeCompare (title a) (title b) =? 0
  end.

(** [y] is in the partition of [x] and ties with it. *)
Definition tied (by_ : SortOption) (x y : Note) : bool :=
  Bool.eqb (isPinned x) (isPinned y) && sameKey by_ x y.

(** What an intent must satisfy for identifiers to stay distinct: a
    generated id is new to the collection, an edit does not carry an [id]
    key, and the records of an imported array carry ids distinct from one
    another and from those of the collection. *)
Definition keepsIdsApart (i : Intent) (w : World) : Prop :=
  match i with
  | Create uuid => ~ In uuid (ids (notes (app w)))
  | Update updates => p_id updates = None
  | Import (Some text) =>
      match JSON_parse text with
      | Some (JArray items) =>
          NoDup (ids (map asNote items))
          /\ (forall k, In k (ids (map asNote items)) ->
                        ~ In k (ids (notes (app w))))
      | _ => True
      end
  | _ => True
  end.

Fixpoint allKeepIdsApart (is_ : list Intent) (w : World) : Prop :=
  match is_ with
  | [] => True
  | i :: rest =>
      keepsIdsApart i w
      /\ allKeepIdsApart rest (dispatch JSON_parse asNote i w)
  end.
End Vocabulary.

(** ** Sample data *)

Module Sample.
Import Reference.

Definition steadyClock (t : Z) : Clock := mkClock 0 (fun _ => t).
Definition tickingClock (t : Z) : Clock := mkClock 0 (fun k => t + Z.of_nat k).

Definition world (l : list Note) (c : Clock) : World :=
  mkWorld (setNotes l initialState) emptyStorage c [].

Definition noteA : Note :=
  mkNote "a" "Groceries" "milk, eggs" false 5 5 (Some "bg-white").
Definition noteB : Note :=
  mkNote "b" "Plan" "trip" true 6 6 (Some "bg-white").

(** A backup holding one record whose id is that of [noteA]. *)
Definition backupOfA : string :=
  ("[{" ++ quoted "id" ++ ":" ++ quoted "a" ++ ","
       ++ quoted "title" ++ ":" ++ quoted "Groceries" ++ ","
       ++ quoted "content" ++ ":" ++ quoted "milk, eggs" ++ ","
       ++ quoted "isPinned" ++ ":false,"
       ++ quoted "createdAt" ++ ":5,"
       ++ quoted "lastModified" ++ ":5,"
       ++ quoted "color" ++ ":" ++ quoted "bg-white" ++ "}]")%string.

(** A backup holding one record with an id of its own. *)
Definition backupOfC : string :=
  ("[{" ++ quoted "id" ++ ":" ++ quoted "c" ++ ","
       ++ quoted "title" ++ ":" ++ quoted "Ideas" ++ ","
       ++ quoted "content" ++ ":" ++ quoted "" ++ ","
       ++ quoted "isPinned" ++ ":false,"
       ++ quoted "createdAt" ++ ":7,"
       ++ quoted "lastModified" ++ ":8}]")%string.

Definition storageWith (key text : string) : Storage :=
  fun k => if (k =? key)%string then Some text else None.

(** Unpinned like [noteA], and last modified at the same time. *)
Definition noteD : Note :=
  mkNote "d" "Letters" "Eggs and flour" false 4 5 None.

Definition shelf : list Note := [noteA; noteB; noteD].

(** [noteA] open in the editor, the clock reading 9. *)
Definition editingA : World :=
  handleNoteClick "a" (world [noteB; noteA] (steadyClock 9)).

Definition retitle : PartialNote :=
  mkPartialNote None (Some "Food") None None None None None.
Definition pinIt : PartialNote :=
  mkPartialNote None None None (Some true) None None None.
Definition rekey : PartialNote :=
  mkPartialNote (Some "z") None None None (Some 0) None None.

(** [noteA] alone in the collection, the clock reading 9. *)
Definition worldA : World := world [noteA] (steadyClock 9).

(** A session that uses every operation of the store. *)
Definition session : list Intent :=
  [ Create "n1"; NoteClick "n1"; Update retitle; TogglePin "a";
    Delete "b"; Import (Some backupOfC); Delete "a";
    ClearAll false; Import (Some "oops") ].
End Sample.

(** ** The rest of the store: persistence, selection, export, sharing *)

Definition setItem (key value : string) (st : Storage) : Storage :=
  fun k => if (k =? key)%string then Some value else st k.

Definition withStorage (f : Storage -> Storage) (w : World) : World :=
  mkWorld (app w) (f (localStorage w)) (clock w) (alerts w).

(** [notes.find(n => n.id === currentNoteId)]: nothing is found while
    [currentNoteId] is [null]. *)
Definition currentNote (s : AppState) : option Note :=
  match currentNoteId s with
  | None => None
  | Some cur => find (fun n => (id n =? cur)%string) (notes s)
  end.

(** What [handleShare] hands to the platform: a call of [navigator.share]
    or a text for the clipboard. *)
Inductive ShareAction :=
| NativeShare (shareTitle shareText : string)
| ClipboardWrite (text : string).

Definition lineBreak : string := String "010" EmptyString.

(** [canShare] tells whether [navigator.share] exists. *)
Definition handleShare (canShare : bool) (note : Note) (w : World)
    : World * ShareAction :=
  if canShare then
    (w, NativeShare (if (title note =? "")%string then "Untitled Note"
                     else title note)
                    (content note))
  else
    (alert "Content copied to clipboard." w,
     ClipboardWrite (title note ++ lineBreak ++ lineBreak ++ content note)%string).

(** The two edits of the profile view. *)
Definition handleNameChange (value : string) (w : World) : World :=
  withApp (fun s => setProfile (mkUserProfile value (avatar (profile s))) s) w.

Definition handleImageUpload (file : option string) (w : World) : World :=
  match file with
  | None => w
  | Some dataUrl =>
      withApp (fun s => setProfile (mkUserProfile (name (profile s)) (Some dataUrl)) s) w
  end.

(** [v.k], read on a run-time value: the member of that name that
    [JSON.parse] keeps of an object, [undefined] ([None]) on anything
    else that has properties. *)
Definition propertyOf (k : string) (v : JsonValue) : option JsonValue :=
  Reference.property k v.

(** [!x] for a run-time value or [undefined]. *)
Definition falsy (x : option JsonValue) : bool :=
  match x with
  | None => true
  | Some JNull => true
  | Some (JBool b) => negb b
  | Some (JNumber z) => z =? 0
  | Some (JString s) => (s =? "")%string
  | Some (JArray _) => false
  | Some (JObject _) => false
  end.

(** How the name test of the start-up effect ends. *)
Inductive NameCheck :=
| NameThrows
| NameReplaced
| NameKept.

Section Persistence.
Variable JSON_parse : string -> option JsonValue.
(** [JSON.stringify] at the types it is called at: the notes, the notes with
    an indentation of two, the profile. *)
Variable stringifyNotes : list Note -> string.
Variable stringifyNotesIndented : list Note -> string.
Variable stringifyProfile : UserProfile -> string.
(** The views TypeScript takes of what the two loaders return. *)
Variable asNotes : JsonValue -> list Note.
Variable asUserProfile : JsonValue -> UserProfile.
Variable trim : string -> string.

(** *** utils/storage.ts, the writers *)

Definition saveNotes (l : list Note) (st : Storage) : Storage :=
  setItem STORAGE_KEY (stringifyNotes l) st.

Definition saveProfile (p : UserProfile) (st : Storage) : Storage :=
  setItem PROFILE_KEY (stringifyProfile p) st.

(** *** App.tsx, the effects *)

(** [if (!savedProfile.name || savedProfile.name.trim() === '')
    savedProfile.name = 'Guest User'] on what [loadProfile] returned.
    Reading [.name] of [null] throws; a boolean, a number or a string has no
    [name] and, in module code, does not take one, so the assignment throws;
    an array takes the assignment; a name that is neither falsy nor a
    string has no [trim], so the call throws. *)
Definition checkName (savedProfile : JsonValue) : NameCheck :=
  match savedProfile with
  | JNull => NameThrows
  | JBool _ | JNumber _ | JString _ => NameThrows
  | JArray _ => NameReplaced
  | JObject _ =>
      if falsy (propertyOf "name" savedProfile) then NameReplaced
      else
        match propertyOf "name" savedProfile with
        | Some (JString s) =>
            if (trim s =? "")%string then NameReplaced else NameKept
        | _ => NameThrows
        end
  end.

(** The effect that runs once, when the application starts; [None] when it
    throws. *)
Definition Initialize (w : World) : option World :=
  let loaded := asNotes (loadNotes JSON_parse (localStorage w)) in
  let savedProfile := loadProfile JSON_parse (localStorage w) in
  match checkName savedProfile with
  | NameThrows => None
  | NameReplaced =>
      Some (withApp
              (fun s =>
                 setProfile
                   (mkUserProfile "Guest User" (avatar (asUserProfile savedProfile)))
                   (setNotes loaded s))
              w)
  | NameKept =>
      Some (withApp
              (fun s => setProfile (asUserProfile savedProfile) (setNotes loaded s))
              w)
  end.

(** The effect that runs when [notes] has changed. *)
Definition syncNotes (w : World) : World :=
  if (0 <? List.length (notes (app w)))%nat
     || truthy (getItem (localStorage w) "notepad_pro_notes")
  then withStorage (saveNotes (notes (app w))) w
  else w.

(** The effect that runs when [profile] has changed. *)
Definition syncProfile (w : World) : World :=
  withStorage (saveProfile (profile (app w))) w.

(** *** Export

    [today] is the date of the day in the form [yyyy_MM_dd]; the result
    carries the name and the text of the file offered for download, if
    any. *)
Definition handleExport (today : string) (w : World)
    : World * option (string * string) :=
  if (List.length (notes (app w)) =? 0)%nat then
    (alert "No notes to export!" w, None)
  else
    let data := stringifyNotesIndented (notes (app w)) in
    (w, Some (("notes_backup_" ++ today ++ ".json")%string, data)).
End Persistence.

(** ** One instance of the writers and of the views *)
Module ReferenceIO.
Import Reference.

Fixpoint escape (s : string) : string :=
  match s with
  | EmptyString => EmptyString
  | String c s' =>
      if Ascii.eqb c quote then String backslash (String quote (escape s'))
      else if Ascii.eqb c backslash
      then String backslash (String backslash (escape s'))
      else if Ascii.eqb c "010" then String backslash (String "n" (escape s'))
      else if Ascii.eqb c "009" then String backslash (String "t" (escape s'))
      else if Ascii.eqb c "013" then String backslash (String "r" (escape s'))
      else String c (escape s')
  end.

Definition writeString (s : string) : string := quoted (escape s).

Definition writeNumber (z : Z) : string :=
  DecimalString.NilZero.string_of_int (Z.to_int z).

Definition writeBoolean (b : bool) : string := if b then "true" else "false".

(** The members of a note, in the order [handleCreateNote] writes them; an
    undefined [color] is left out. *)
Definition noteMembers (sep : string) (n : Note) : list string :=
  [ (quoted "id" ++ sep ++ writeString (id n))%string;
    (quoted "title" ++ sep ++ writeString (title n))%string;
    (quoted "content" ++ sep ++ writeString (content n))%string;
    (quoted "isPinned" ++ sep ++ writeBoolean (isPinned n))%string;
    (quoted "createdAt" ++ sep ++ writeNumber (createdAt n))%string;
    (quoted "lastModified" ++ sep ++ writeNumber (lastModified n))%string ]
  ++ match color n with
     | Some c => [ (quoted "color" ++ sep ++ writeString c)%string ]
     | None => []
     end.

Definition stringifyNotes (l : list Note) : string :=
  ("[" ++ String.concat ","
            (map (fun n => "{" ++ String.concat "," (noteMembers ":" n) ++ "}") l)
       ++ "]")%string.

(** [JSON.stringify(notes, null, 2)] *)
Definition stringifyNotesIndented (l : list Note) : string :=
  match l with
  | [] => "[]"
  | _ :: _ =>
      ("[" ++ lineBreak ++ "  "
       ++ String.concat ("," ++ lineBreak ++ "  ")
            (map (fun n =>
                    "{" ++ lineBreak ++ "    "
                    ++ String.concat ("," ++ lineBreak ++ "    ")
                         (noteMembers ": " n)
                    ++ lineBreak ++ "  }") l)
       ++ lineBreak ++ "]")%string
  end.

Definition stringifyProfile (p : UserProfile) : string :=
  ("{" ++ quoted "name" ++ ":" ++ writeString (name p) ++ ","
       ++ quoted "avatar" ++ ":"
       ++ match avatar p with
          | Some a => writeString a
          | None => "null"
          end
       ++ "}")%string.

Definition asNotes (v : JsonValue) : list Note :=
  match v with
  | JArray items => map asNote items
  | _ => []
  end.

Definition asUserProfile (v : JsonValue) : UserProfile :=
  mkUserProfile
    (match property "name" v with Some (JString s) => s | _ => "" end)
    (match property "avatar" v with Some (JString s) => Some s | _ => None end).

Definition isBlank (c : ascii) : bool :=
  let n := nat_of_ascii c in
  ((n =? 32) || ((9 <=? n) && (n <=? 13)))%nat.

Fixpoint dropBlanks (cs : list ascii) : list ascii :=
  match cs with
  | c :: r => if isBlank c then dropBlanks r else cs
  | [] => []
  end.

Definition trim (s : string) : string :=
  string_of_list_ascii
    (rev (dropBlanks (rev (dropBlanks (list_ascii_of_string s))))).
End ReferenceIO.

(** ** Vocabulary of the timestamps *)

(** Later readings of the clock are not smaller. *)
Definition clockMonotone (c : Clock) : Prop :=
  forall i j, (i <= j)%nat -> reading c i <= reading c j.

(** No note was modified before it was created, nor after the next reading
    of the clock. *)
Definition timestampsOrdered (w : World) : Prop :=
  forall n, In n (notes (app w)) ->
            createdAt n <= lastModified n
            /\ lastModified n <= reading (clock w) (elapsed (clock w)).

Section TimestampVocabulary.
Variable JSON_parse : string -> option JsonValue.
Variable asNote : JsonValue -> Note.

(** What an intent must satisfy for the timestamps to stay ordered: an edit
    carries no [createdAt] key, and the records of an imported array are
    themselves ordered and not from the future. *)
Definition keepsTimestampsOrdered (i : Intent) (w : World) : Prop :=
  match i with
  | Update updates => p_createdAt updates = None
  | Import (Some text) =>
      match JSON_parse text with
      | Some (JArray items) =>
          forall n, In n (map asNote items) ->
                    createdAt n <= lastModified n
                    /\ lastModified n <= reading (clock w) (elapsed (clock w))
      | _ => True
      end
  | _ => True
  end.

Fixpoint allKeepTimestampsOrdered (is_ : list Intent) (w : World) : Prop :=
  match is_ with
  | [] => True
  | i :: rest =>
      keepsTimestampsOrdered i w
      /\ allKeepTimestampsOrdered rest (dispatch JSON_parse asNote i w)
  end.
End TimestampVocabulary.

(** ** More sample data *)
Module Saved.
Import Reference.

(** Two notes; the title of the second holds a quote and a line break. *)
Definition noteQ : Note :=
  mkNote "q" (String quote "Quoted" ++ lineBreak ++ "line")%string
         "back\slash" true 7 8 None.

Definition desk : list Note := [Sample.noteA; noteQ].

Definition deskWorld : World := Sample.world desk (Sample.steadyClock 9).

Definition risingClock : Clock := Sample.tickingClock 10.

(** A session under a rising clock. *)
(** A note whose id is the empty string, as an imported record may have. *)
Definition noteE : Note := mkNote "" "Loose" "" false 3 3 None.

(** [noteE] open in the editor, the clock reading 9. *)
Definition editingEmpty : World :=
  handleNoteClick "" (Sample.world [noteE; Sample.noteA] (Sample.steadyClock 9)).

(** An id selected that no note carries. *)
Definition editingAbsent : World :=
  handleNoteClick "zz" (Sample.world [Sample.noteB; Sample.noteA] (Sample.steadyClock 9)).




(** An image chosen and the name typed over with blanks. *)
Definition blankNamed : World :=
  handleNameChange "  "
    (handleImageUpload (Some "data:image/png;base64,AA==") Sample.worldA).

(** A note whose [createdAt] an edit has moved past its [lastModified],
    open in the editor under the rising clock. *)
Definition editingBackdated : World :=
  handleNoteClick "k"
    (Sample.world [mkNote "k" "Kept" "" false 8 6 None] risingClock).

Definition busySession : list Intent :=
  [ Create "n1"; NoteClick "a"; Update Sample.retitle; TogglePin "a";
    Create "n2"; NoteClick "n2"; Update Sample.pinIt; Delete "n1";
    ClearAll false ].
End Saved.

(** * Properties *)

(** ** Pinning *)

Lemma flipPin_frame (n : Note) :
  id (flipPin n) = id n /\ title (flipPin n) = title n
  /\ content (flipPin n) = content n /\ createdAt (flipPin n) = createdAt n
  /\ lastModified (flipPin n) = lastModified n /\ color (flipPin n) = color n.
Proof. repeat split. Qed.

(** C2. [togglePin(id)] flips [isPinned] of the note with that id and leaves
    [lastModified] and every other field of every note as it was; the notes
    keep their number and order, and the clock is not read. *)
Theorem togglePin_flips_only_isPinned (target : string) (w : World) :
  Forall2
    (fun n n' =>
       id n' = id n /\ title n' = title n /\ content n' = content n
       /\ createdAt n' = createdAt n /\ lastModified n' = lastModified n
       /\ color n' = color n
       /\ isPinned n' =
            (if (id n =? target)%string then negb (isPinned n) else isPinned n))
    (notes (app w)) (notes (app (handleTogglePin target w)))
  /\ clock (handleTogglePin target w) = clock w.
Proof.
  split; [| reflexivity].
  unfold handleTogglePin, withApp; simpl.
  induction (notes (app w)) as [| n l IH]; simpl; constructor; auto.
  destruct (id n =? target)%string; simpl; repeat split.
Qed.

(** ** Creation *)

Lemma handleCreateNote_notes (uuid : string) (w : World) :
  notes (app (handleCreateNote uuid w)) =
  mkNote uuid "" "" false
         (reading (clock w) (elapsed (clock w)))
         (reading (clock w) (S (elapsed (clock w))))
         (Some "bg-white")
  :: notes (app w).
Proof. reflexivity. Qed.

(** C8. [create()] puts the new note at the front and keeps the others, but
    it reads the clock once for [createdAt] and once more for
    [lastModified]: when the clock advances between the two reads (1000,
    then 1001) the two timestamps differ. *)
Theorem create_reads_clock_twice :
  map (fun n => (createdAt n, lastModified n))
      (notes (app (handleCreateNote "u1"
                     (Sample.world [] (Sample.tickingClock 1000)))))
  = [(1000, 1001)].
Proof. reflexivity. Qed.

(** ** Reset *)

(** C5. After a confirmed [clearAll()] the collection is empty and the
    profile has no avatar, but its name is "Guest User", which is not the
    name "Guest" of the default profile that [loadProfile] yields from the
    storage the reset has just emptied. *)
Theorem clearAll_profile_name_is_not_default
    (JSON_parse : string -> option JsonValue) (w : World) :
  let w' := handleClearAll true w in
  notes (app w') = []
  /\ profile (app w') = mkUserProfile "Guest User" None
  /\ name (profile (app w')) <> "Guest"
  /\ loadProfile JSON_parse (localStorage w')
     = JObject [("name", JString "Guest"); ("avatar", JNull)].
Proof.
  cbv zeta. repeat split.
  simpl. discriminate.
Qed.

(** ** Storage *)

(** C10. [loadNotes] checks that the stored text parses and nothing else:
    whatever value the text parses to is returned as it is, of any shape;
    the empty array comes back when the key is absent and when parsing
    throws.  ([JSON.parse] throws on the empty text.) *)
Theorem loadNotes_checks_parse_only
    (JSON_parse : string -> option JsonValue)
    (JSON_parse_empty : JSON_parse "" = None) (st : Storage) :
  (forall text v,
      getItem st STORAGE_KEY = Some text -> JSON_parse text = Some v ->
      loadNotes JSON_parse st = v)
  /\ (getItem st STORAGE_KEY = None -> loadNotes JSON_parse st = JArray [])
  /\ (forall text,
        getItem st STORAGE_KEY = Some text -> JSON_parse text = None ->
        loadNotes JSON_parse st = JArray []).
Proof.
  unfold loadNotes. repeat split.
  - intros text v Hget Hparse. rewrite Hget. simpl.
    destruct (String.eqb_spec text "") as [-> | _]; simpl.
    + congruence.
    + now rewrite Hparse.
  - intros ->. reflexivity.
  - intros text Hget Hparse. rewrite Hget. simpl.
    destruct (text =? "")%string; simpl; [reflexivity |].
    now rewrite Hparse.
Qed.

Lemma loadNotes_checks_parse_only_witness :
  loadNotes Reference.JSON_parse (Sample.storageWith STORAGE_KEY "42") = JNumber 42
  /\ loadNotes Reference.JSON_parse
       (Sample.storageWith STORAGE_KEY (Reference.quoted "text"))
     = JString "text"
  /\ loadNotes Reference.JSON_parse emptyStorage = JArray []
  /\ loadNotes Reference.JSON_parse (Sample.storageWith STORAGE_KEY "{") = JArray [].
Proof.
  split; [| split; [| split]].
  - apply (proj1 (loadNotes_checks_parse_only Reference.JSON_parse eq_refl
                    (Sample.storageWith STORAGE_KEY "42")) "42");
      reflexivity.
  - apply (proj1 (loadNotes_checks_parse_only Reference.JSON_parse eq_refl
                    (Sample.storageWith STORAGE_KEY (Reference.quoted "text")))
                 (Reference.quoted "text"));
      reflexivity.
  - apply (proj1 (proj2 (loadNotes_checks_parse_only Reference.JSON_parse eq_refl
                           emptyStorage)));
      reflexivity.
  - apply (proj2 (proj2 (loadNotes_checks_parse_only Reference.JSON_parse eq_refl
                           (Sample.storageWith STORAGE_KEY "{"))) "{");
      reflexivity.
Defined.

(** ** Import: failures *)

(** C4. When the document parses to something that is not an array, import
    reports [InvalidFormat]; when it does not parse, import reports
    [ParseFailure]; in both cases the state of the application, and with it
    the collection, is what it was. *)
Theorem import_failure_leaves_collection
    (JSON_parse : string -> option JsonValue) (asNote : JsonValue -> Note)
    (text : string) (w : World) :
  let w' := handleImport JSON_parse asNote (Some text) w in
  (forall v, JSON_parse text = Some v -> Array_isArray v = false ->
             signals InvalidFormat w w' /\ app w' = app w)
  /\ (JSON_parse text = None ->
      signals ParseFailure w w' /\ app w' = app w).
Proof.
  cbv zeta. unfold handleImport, signals. split.
  - intros v Hparse Hshape. rewrite Hparse.
    destruct v; simpl in Hshape; try discriminate; split; reflexivity.
  - intros Hparse. rewrite Hparse. split; reflexivity.
Qed.

Lemma import_failure_leaves_collection_witness :
  (signals InvalidFormat Sample.worldA
     (handleImport Reference.JSON_parse Reference.asNote
        (Some (Reference.quoted "not an array")) Sample.worldA)
   /\ app (handleImport Reference.JSON_parse Reference.asNote
             (Some (Reference.quoted "not an array")) Sample.worldA)
      = app Sample.worldA)
  /\ (signals ParseFailure Sample.worldA
        (handleImport Reference.JSON_parse Reference.asNote
           (Some "not an array") Sample.worldA)
      /\ app (handleImport Reference.JSON_parse Reference.asNote
                (Some "not an array") Sample.worldA)
         = app Sample.worldA).
Proof.
  split.
  - apply (proj1 (import_failure_leaves_collection
                    Reference.JSON_parse Reference.asNote
                    (Reference.quoted "not an array") Sample.worldA)
                 (JString "not an array"));
      reflexivity.
  - apply (proj2 (import_failure_leaves_collection
                    Reference.JSON_parse Reference.asNote
                    "not an array" Sample.worldA));
      reflexivity.
Defined.

(** ** Editing *)

Lemma applyUpdates_lastModified (n : Note) (updates : PartialNote) (now : Z) :
  lastModified (applyUpdates n updates now) = now.
Proof. reflexivity. Qed.

Lemma applyUpdates_id (n : Note) (updates : PartialNote) (now : Z) :
  p_id updates = None -> id (applyUpdates n updates now) = id n.
Proof. intros H. unfold applyUpdates. simpl. now rewrite H. Qed.

Lemma applyUpdates_createdAt (n : Note) (updates : PartialNote) (now : Z) :
  p_createdAt updates = None ->
  createdAt (applyUpdates n updates now) = createdAt n.
Proof. intros H. unfold applyUpdates. simpl. now rewrite H. Qed.

Lemma updateNotes_spec (cur : string) (updates : PartialNote) :
  forall (l : list Note) (c : Clock),
    reading (snd (updateNotes cur updates c l)) = reading c
    /\ (elapsed c <= elapsed (snd (updateNotes cur updates c l)))%nat
    /\ Forall2 (editedBy cur updates c (snd (updateNotes cur updates c l)))
               l (fst (updateNotes cur updates c l)).
Proof.
  induction l as [| n l IH]; intros c; simpl.
  - repeat split; auto.
  - destruct (id n =? cur)%string eqn:E.
    + specialize (IH (snd (Date_now c))). simpl in IH.
      destruct (updateNotes cur updates (mkClock (S (elapsed c)) (reading c)) l)
        as [rest c2] eqn:Er.
      simpl in *. destruct IH as (Hr & Hle & Hall).
      repeat split; [assumption | lia |].
      constructor.
      * unfold editedBy. rewrite E. exists (elapsed c). split; [lia | reflexivity].
      * eapply Forall2_impl; [| exact Hall].
        intros a b. unfold editedBy. simpl.
        destruct (id a =? cur)%string; [| trivial].
        intros (k & Hk & ->). exists k. split; [lia | reflexivity].
    + specialize (IH c).
      destruct (updateNotes cur updates c l) as [rest c2] eqn:Er.
      simpl in *. destruct IH as (Hr & Hle & Hall).
      repeat split; [assumption | assumption |].
      constructor; [| assumption].
      unfold editedBy. now rewrite E.
Qed.

Lemma updateNotes_absent (cur : string) (updates : PartialNote) :
  forall (l : list Note) (c : Clock),
    (forall n, In n l -> id n <> cur) ->
    updateNotes cur updates c l = (l, c).
Proof.
  induction l as [| n l IH]; intros c Habs; simpl; [reflexivity |].
  destruct (String.eqb_spec (id n) cur) as [E | _].
  - exfalso. apply (Habs n); [now left | assumption].
  - rewrite IH; [reflexivity |]. intros m Hm. apply Habs. now right.
Qed.

Lemma handleUpdateNote_selected (updates : PartialNote) (w : World) (cur : string) :
  currentNoteId (app w) = Some cur -> cur <> "" ->
  notes (app (handleUpdateNote updates w))
    = fst (updateNotes cur updates (clock w) (notes (app w)))
  /\ clock (handleUpdateNote updates w)
    = snd (updateNotes cur updates (clock w) (notes (app w))).
Proof.
  intros Hcur Hne. unfold handleUpdateNote. rewrite Hcur. simpl.
  apply String.eqb_neq in Hne. rewrite Hne. simpl.
  destruct (updateNotes cur updates (clock w) (notes (app w))); split; reflexivity.
Qed.

Lemma handleUpdateNote_unselected (updates : PartialNote) (w : World) :
  currentNoteId (app w) = None \/ currentNoteId (app w) = Some "" ->
  handleUpdateNote updates w = w.
Proof.
  intros [H | H]; unfold handleUpdateNote; rewrite H; reflexivity.
Qed.

(** C3 (amended). With a non-empty id selected, [update] gives every note
    of that id a [lastModified] the clock returned during the update,
    whichever fields the partial set carries, and keeps every other note;
    the id of an edited note is kept when the set has no [id] key and its
    [createdAt] when the set has no [createdAt] key; when no note has the
    selected id, collection and clock are as before.  With the empty string
    or nothing selected, [update] changes nothing at all, also when a note
    carries the empty id. *)
Theorem update_refreshes_lastModified (updates : PartialNote) (w : World) :
  let w' := handleUpdateNote updates w in
  (forall cur,
      currentNoteId (app w) = Some cur -> cur <> "" ->
      Forall2
        (fun n n' =>
           (id n = cur ->
            (exists k, (elapsed (clock w) <= k < elapsed (clock w'))%nat
                       /\ lastModified n' = reading (clock w) k)
            /\ (p_id updates = None -> id n' = id n)
            /\ (p_createdAt updates = None -> createdAt n' = createdAt n))
           /\ (id n <> cur -> n' = n))
        (notes (app w)) (notes (app w')))
  /\ (forall cur,
        currentNoteId (app w) = Some cur ->
        (forall n, In n (notes (app w)) -> id n <> cur) ->
        notes (app w') = notes (app w) /\ clock w' = clock w)
  /\ (currentNoteId (app w) = None \/ currentNoteId (app w) = Some "" ->
      w' = w).
Proof.
  cbv zeta. split; [| split].
  - intros cur Hcur Hne.
    destruct (handleUpdateNote_selected updates w cur Hcur Hne) as [Hn Hc].
    rewrite Hn, Hc.
    destruct (updateNotes_spec cur updates (notes (app w)) (clock w))
      as (_ & _ & Hall).
    eapply Forall2_impl; [| exact Hall].
    intros n n'. unfold editedBy.
    destruct (String.eqb_spec (id n) cur) as [E | E].
    + intros (k & Hk & ->). split; [| intros; contradiction].
      intros _. split; [exists k; split; [assumption | reflexivity] |].
      split; [apply applyUpdates_id | apply applyUpdates_createdAt].
    + intros ->. split; [intros; contradiction | reflexivity].
  - intros cur Hcur Habs.
    destruct (String.eqb_spec cur "") as [-> | Hne].
    + rewrite (handleUpdateNote_unselected updates w (or_intror Hcur)).
      split; reflexivity.
    + destruct (handleUpdateNote_selected updates w cur Hcur Hne) as [Hn Hc].
      rewrite Hn, Hc. now rewrite (updateNotes_absent cur updates _ _ Habs).
  - apply handleUpdateNote_unselected.
Qed.

Lemma update_refreshes_lastModified_witness :
  Forall2
    (fun n n' =>
       (id n = "a" ->
        (exists k,
            (elapsed (clock Sample.editingA) <= k
             < elapsed (clock (handleUpdateNote Sample.retitle Sample.editingA)))%nat
            /\ lastModified n' = reading (clock Sample.editingA) k)
        /\ (p_id Sample.retitle = None -> id n' = id n)
        /\ (p_createdAt Sample.retitle = None -> createdAt n' = createdAt n))
       /\ (id n <> "a" -> n' = n))
    (notes (app Sample.editingA))
    (notes (app (handleUpdateNote Sample.retitle Sample.editingA)))
  /\ (notes (app (handleUpdateNote Sample.retitle Saved.editingAbsent))
        = notes (app Saved.editingAbsent)
      /\ clock (handleUpdateNote Sample.retitle Saved.editingAbsent)
        = clock Saved.editingAbsent)
  /\ handleUpdateNote Sample.retitle Saved.editingEmpty = Saved.editingEmpty.
Proof.
  split; [| split].
  - apply (proj1 (update_refreshes_lastModified Sample.retitle Sample.editingA) "a").
    + reflexivity.
    + discriminate.
  - apply (proj1 (proj2 (update_refreshes_lastModified
                           Sample.retitle Saved.editingAbsent)) "zz").
    + reflexivity.
    + simpl. intros n [<- | [<- | []]]; discriminate.
  - apply (proj2 (proj2 (update_refreshes_lastModified
                           Sample.retitle Saved.editingEmpty))).
    right. reflexivity.
Defined.

(** C3, as stated, fails twice.  With [noteA] selected, a partial set that
    carries [id] and [createdAt] keys replaces both in the edited note.
    With the note of the empty id selected, [update] returns at its guard:
    the note keeps its title and its [lastModified] of 3 while the clock
    reads 9. *)
Lemma update_fails_as_stated :
  (map (fun n => (id n, createdAt n)) (notes (app Sample.editingA))
     = [("b", 6); ("a", 5)]
   /\ map (fun n => (id n, createdAt n))
          (notes (app (handleUpdateNote Sample.rekey Sample.editingA)))
      = [("b", 6); ("z", 0)]
   /\ ~ Forall2 (fun n n' => id n' = id n /\ createdAt n' = createdAt n)
          (notes (app Sample.editingA))
          (notes (app (handleUpdateNote Sample.rekey Sample.editingA))))
  /\ (currentNoteId (app Saved.editingEmpty) = Some ""
      /\ fst (Date_now (clock Saved.editingEmpty)) = 9
      /\ map (fun n => (id n, title n, lastModified n))
             (notes (app (handleUpdateNote Sample.retitle Saved.editingEmpty)))
         = [("", "Loose", 3); ("a", "Groceries", 5)]
      /\ ~ (forall n',
              In n' (notes (app (handleUpdateNote Sample.retitle Saved.editingEmpty))) ->
              id n' = "" ->
              lastModified n' = fst (Date_now (clock Saved.editingEmpty)))).
Proof.
  split.
  - split; [reflexivity |]. split; [reflexivity |].
    intros H.
    apply Forall2_cons_iff in H. destruct H as [_ H].
    apply Forall2_cons_iff in H. destruct H as [[Hid _] _].
    discriminate Hid.
  - split; [reflexivity |]. split; [reflexivity |]. split; [reflexivity |].
    intros H.
    specialize (H Saved.noteE (or_introl eq_refl) eq_refl).
    discriminate H.
Qed.

(** C9, as stated, fails: [togglePin] at a moment when the clock reads 9
    leaves the [lastModified] of the toggled note at 5. *)
Lemma togglePin_does_not_refresh_lastModified :
  map (fun n => (id n, isPinned n, lastModified n))
      (notes (app (handleTogglePin "a" Sample.worldA)))
    = [("a", true, 5)]
  /\ ~ (forall n',
          In n' (notes (app (handleTogglePin "a" Sample.worldA))) ->
          id n' = "a" ->
          lastModified n' = fst (Date_now (clock Sample.worldA))).
Proof.
  split; [reflexivity |].
  intros H.
  specialize (H (flipPin Sample.noteA) (or_introl eq_refl) eq_refl).
  discriminate H.
Qed.

(** C9 (amended). [togglePin] flips the pin flag of the notes of the given
    id and leaves [lastModified] of every note as it was.  [lastModified]
    is set to the current time by every mutation made through [update] with
    a non-empty id selected, whichever fields it carries, the pin flag among
    them. *)
Theorem lastModified_refreshed_by_update_only
    (updates : PartialNote) (target : string) (w : World) :
  Forall2
    (fun n n' =>
       lastModified n' = lastModified n
       /\ isPinned n' =
            (if (id n =? target)%string then negb (isPinned n) else isPinned n))
    (notes (app w)) (notes (app (handleTogglePin target w)))
  /\ (forall cur,
        currentNoteId (app w) = Some cur -> cur <> "" ->
        Forall2
          (fun n n' =>
             id n = cur ->
             (exists k,
                 (elapsed (clock w) <= k
                  < elapsed (clock (handleUpdateNote updates w)))%nat
                 /\ lastModified n' = reading (clock w) k)
             /\ isPinned n' = match p_isPinned updates with
                              | Some b => b
                              | None => isPinned n
                              end)
          (notes (app w)) (notes (app (handleUpdateNote updates w)))).
Proof.
  split.
  - unfold handleTogglePin, withApp; simpl.
    induction (notes (app w)) as [| n l IH]; simpl; constructor; auto.
    destruct (id n =? target)%string; split; reflexivity.
  - intros cur Hcur Hne.
    destruct (handleUpdateNote_selected updates w cur Hcur Hne) as [Hn Hc].
    rewrite Hn, Hc.
    destruct (updateNotes_spec cur updates (notes (app w)) (clock w))
      as (_ & _ & Hall).
    eapply Forall2_impl; [| exact Hall].
    intros n n'. unfold editedBy.
    destruct (String.eqb_spec (id n) cur) as [E | E].
    + intros (k & Hk & ->) _. split; [| reflexivity].
      exists k. split; [assumption | reflexivity].
    + intros _ Hid. contradiction.
Qed.

Lemma lastModified_refreshed_by_update_only_witness :
  Forall2
    (fun n n' =>
       lastModified n' = lastModified n
       /\ isPinned n' =
            (if (id n =? "a")%string then negb (isPinned n) else isPinned n))
    (notes (app Sample.editingA))
    (notes (app (handleTogglePin "a" Sample.editingA)))
  /\ Forall2
       (fun n n' =>
          id n = "a" ->
          (exists k,
              (elapsed (clock Sample.editingA) <= k
               < elapsed (clock (handleUpdateNote Sample.pinIt Sample.editingA)))%nat
              /\ lastModified n' = reading (clock Sample.editingA) k)
          /\ isPinned n' = match p_isPinned Sample.pinIt with
                           | Some b => b
                           | None => isPinned n
                           end)
       (notes (app Sample.editingA))
       (notes (app (handleUpdateNote Sample.pinIt Sample.editingA))).
Proof.
  split.
  - apply (proj1 (lastModified_refreshed_by_update_only
                    Sample.pinIt "a" Sample.editingA)).
  - apply (proj2 (lastModified_refreshed_by_update_only
                    Sample.pinIt "a" Sample.editingA) "a").
    + reflexivity.
    + discriminate.
Defined.

(** ** The sort *)

Section ArraySortFacts.
Context {A : Type}.
Variable compareFn : A -> A -> Z.

Lemma sort_insert_perm (x : A) (l : list A) :
  Permutation (x :: l) (sort_insert compareFn x l).
Proof.
  induction l as [| y l IH]; simpl; [reflexivity |].
  destruct (compareFn x y <=? 0); [reflexivity |].
  rewrite perm_swap. now apply perm_skip.
Qed.

Lemma Array_sort_perm (l : list A) :
  Permutation l (Array_sort compareFn l).
Proof.
  induction l as [| x l IH]; simpl; [reflexivity |].
  rewrite <- sort_insert_perm. now apply perm_skip.
Qed.

(** A class of elements that the comparator never puts in front of one
    another keeps its order through the sort. *)
Section Stability.
Variable class : A -> bool.
Hypothesis class_ties :
  forall a b, class a = true -> class b = true -> compareFn a b <= 0.

Lemma sort_insert_class (x : A) (l : list A) :
  filter class (sort_insert compareFn x l) = filter class (x :: l).
Proof.
  induction l as [| y l IH]; simpl; [reflexivity |].
  destruct (compareFn x y <=? 0) eqn:E; simpl; [reflexivity |].
  simpl in IH. rewrite IH.
  destruct (class x) eqn:Ex, (class y) eqn:Ey; try reflexivity.
  apply Z.leb_gt in E. pose proof (class_ties x y Ex Ey). lia.
Qed.

Lemma Array_sort_class (l : list A) :
  filter class (Array_sort compareFn l) = filter class l.
Proof.
  induction l as [| x l IH]; simpl; [reflexivity |].
  rewrite sort_insert_class. simpl. now rewrite IH.
Qed.
End Stability.

(** For a comparator that is a total preorder the result is sorted. *)
Section Sortedness.
Hypothesis compareFn_total :
  forall a b, 0 < compareFn a b -> compareFn b a <= 0.
Hypothesis compareFn_trans :
  forall a b c, compareFn a b <= 0 -> compareFn b c <= 0 -> compareFn a c <= 0.

Lemma sort_insert_sorted (x : A) (l : list A) :
  StronglySorted (precedes compareFn) l ->
  StronglySorted (precedes compareFn) (sort_insert compareFn x l).
Proof.
  induction 1 as [| y l Hs IH Hy]; simpl.
  - constructor; constructor.
  - destruct (compareFn x y <=? 0) eqn:E.
    + apply Z.leb_le in E. constructor.
      * now constructor.
      * constructor; [exact E |].
        eapply Forall_impl; [| exact Hy].
        intros z Hz. now apply (compareFn_trans x y z).
    + apply Z.leb_gt in E. constructor; [exact IH |].
      rewrite <- sort_insert_perm.
      constructor; [| exact Hy]. now apply compareFn_total.
Qed.

Lemma Array_sort_sorted (l : list A) :
  StronglySorted (precedes compareFn) (Array_sort compareFn l).
Proof.
  induction l as [| x l IH]; simpl; [constructor |].
  now apply sort_insert_sorted.
Qed.

Lemma Array_sort_ordered (l l1 l2 l3 : list A) (a b : A) :
  Array_sort compareFn l = l1 ++ a :: l2 ++ b :: l3 ->
  compareFn a b <= 0.
Proof.
  intros E. pose proof (Array_sort_sorted l) as Hs. rewrite E in Hs.
  clear E. induction l1 as [| y l1 IH]; simpl in Hs.
  - apply StronglySorted_inv in Hs. destruct Hs as [_ Hall].
    rewrite Forall_forall in Hall. apply Hall.
    apply in_or_app. right. now left.
  - apply StronglySorted_inv in Hs. now apply IH.
Qed.
End Sortedness.
End ArraySortFacts.

(** ** Substring search *)

Lemma startsWith_iff (sub s : string) :
  startsWith sub s = true <-> exists post, s = (sub ++ post)%string.
Proof.
  revert s. induction sub as [| a sub IH]; intros s; simpl.
  - split; [intros _; now exists s | reflexivity].
  - destruct s as [| b s].
    + split; [discriminate | intros [post H]; discriminate].
    + rewrite andb_true_iff, Ascii.eqb_eq, IH. split.
      * intros [-> [post ->]]. now exists post.
      * intros [post H]. injection H as -> ->. split; [reflexivity | now exists post].
Qed.

Lemma includes_iff (s sub : string) :
  includes s sub = true <-> occursIn sub s.
Proof.
  unfold occursIn. induction s as [| c s IH]; simpl.
  - rewrite orb_false_r, startsWith_iff. split.
    + intros [post H]. now exists EmptyString, post.
    + intros [pre [post H]]. destruct pre; [| discriminate].
      now exists post.
  - rewrite orb_true_iff, startsWith_iff, IH. split.
    + intros [[post H] | [pre [post H]]].
      * now exists EmptyString, post.
      * exists (String c pre), post. simpl. now rewrite H.
    + intros [pre [post H]]. destruct pre as [| d pre]; simpl in H.
      * left. now exists post.
      * right. injection H as _ H. now exists pre, post.
Qed.

Lemma includes_empty (s : string) : includes s "" = true.
Proof. destruct s; reflexivity. Qed.

(** ** The projected view *)

Section View.
Variable toLowerCase : string -> string.
Variable localeCompare : string -> string -> Z.

Lemma matchesQuery_iff (q : string) (n : Note) :
  matchesQuery toLowerCase q n = true
  <-> occursIgnoringCase toLowerCase q (title n)
      \/ occursIgnoringCase toLowerCase q (content n).
Proof.
  unfold matchesQuery, occursIgnoringCase.
  now rewrite orb_true_iff, !includes_iff.
Qed.

Lemma filteredNotes_perm (l : list Note) (q : string) (by_ : SortOption) :
  Permutation (filter (matchesQuery toLowerCase q) l)
              (filteredNotes toLowerCase localeCompare l q by_).
Proof. apply Array_sort_perm. Qed.

(** The comparator of the view is a total preorder whenever
    [localeCompare] is one. *)
Section Comparator.
Hypothesis localeCompare_antisym :
  forall a b, Z.sgn (localeCompare b a) = - Z.sgn (localeCompare a b).
Hypothesis localeCompare_trans :
  forall a b c,
    localeCompare a b <= 0 -> localeCompare b c <= 0 -> localeCompare a c <= 0.

Lemma localeCompare_flip (a b : string) :
  0 <= localeCompare a b -> localeCompare b a <= 0.
Proof.
  intros H. pose proof (localeCompare_antisym a b) as Hs.
  destruct (localeCompare a b), (localeCompare b a);
    simpl in Hs; try lia; discriminate.
Qed.

Lemma compareNotes_total (by_ : SortOption) (a b : Note) :
  0 < compareNotes localeCompare by_ a b ->
  compareNotes localeCompare by_ b a <= 0.
Proof.
  unfold compareNotes.
  destruct (isPinned a), (isPinned b), by_; simpl; try lia;
    intros H; apply localeCompare_flip; lia.
Qed.

Lemma compareNotes_trans (by_ : SortOption) (a b c : Note) :
  compareNotes localeCompare by_ a b <= 0 ->
  compareNotes localeCompare by_ b c <= 0 ->
  compareNotes localeCompare by_ a c <= 0.
Proof.
  unfold compareNotes.
  destruct (isPinned a), (isPinned b), (isPinned c), by_; simpl;
    try lia; apply localeCompare_trans.
Qed.

Lemma tied_compareNotes (by_ : SortOption) (x a b : Note) :
  tied localeCompare by_ x a = true ->
  tied localeCompare by_ x b = true ->
  compareNotes localeCompare by_ a b <= 0.
Proof.
  unfold tied, compareNotes. rewrite !andb_true_iff, !eqb_true_iff.
  intros [Ha Ka] [Hb Kb]. rewrite <- Ha, <- Hb.
  destruct (isPinned x); simpl;
    destruct by_; simpl in *;
    try (apply Z.eqb_eq in Ka, Kb; lia);
    apply Z.eqb_eq in Ka, Kb;
    (apply (localeCompare_trans _ (title x));
     [apply localeCompare_flip; lia | lia]).
Qed.

Lemma compareNotes_order (by_ : SortOption) (a b : Note) :
  compareNotes localeCompare by_ a b <= 0 ->
  (isPinned b = true -> isPinned a = true)
  /\ (isPinned a = isPinned b -> keyOrder localeCompare by_ a b).
Proof.
  unfold compareNotes, keyOrder.
  destruct (isPinned a), (isPinned b), by_; simpl; intros H;
    split; intros; try lia; try discriminate; auto.
Qed.
End Comparator.
End View.

Lemma Reference_toLowerCase_empty : Reference.toLowerCase "" = "".
Proof. reflexivity. Qed.

Lemma Reference_localeCompare_antisym (a b : string) :
  Z.sgn (Reference.localeCompare b a) = - Z.sgn (Reference.localeCompare a b).
Proof.
  unfold Reference.localeCompare.
  rewrite (String.compare_antisym a b).
  now destruct (String.compare b a).
Qed.

Lemma Reference_localeCompare_trans (a b c : string) :
  Reference.localeCompare a b <= 0 ->
  Reference.localeCompare b c <= 0 ->
  Reference.localeCompare a c <= 0.
Proof.
  unfold Reference.localeCompare.
  destruct (String.compare a b) eqn:Eab; [| | lia].
  - apply String.compare_eq_iff in Eab. now subst.
  - intros _. destruct (String.compare b c) eqn:Ebc; [| | lia].
    + apply String.compare_eq_iff in Ebc. subst. now rewrite Eab.
    + intros _.
      apply OrderedTypeEx.String_as_OT.cmp_lt in Eab, Ebc.
      pose proof (OrderedTypeEx.String_as_OT.lt_trans _ _ _ Eab Ebc) as Hac.
      apply OrderedTypeEx.String_as_OT.cmp_lt in Hac.
      unfold OrderedTypeEx.String_as_OT.cmp in Hac. rewrite Hac. lia.
Qed.

(** C7. A note is in the projected view exactly when it is in the collection
    and the query, case ignored, occurs in its title or in its content; with
    the empty query every note of the collection is in the view.
    ([toLowerCase] of the empty string is the empty string.) *)
Theorem view_filter_correct
    (toLowerCase : string -> string) (localeCompare : string -> string -> Z)
    (toLowerCase_empty : toLowerCase "" = "")
    (l : list Note) (q : string) (by_ : SortOption) :
  (forall n,
      In n (filteredNotes toLowerCase localeCompare l q by_)
      <-> In n l
          /\ (occursIgnoringCase toLowerCase q (title n)
              \/ occursIgnoringCase toLowerCase q (content n)))
  /\ (forall n, In n l -> In n (filteredNotes toLowerCase localeCompare l "" by_)).
Proof.
  assert (Hin : forall q' n,
             In n (filteredNotes toLowerCase localeCompare l q' by_)
             <-> In n (filter (matchesQuery toLowerCase q') l)).
  { intros q' n. split; apply Permutation_in;
      [symmetry |]; apply filteredNotes_perm. }
  split; intros n.
  - now rewrite Hin, filter_In, matchesQuery_iff.
  - intros Hn. rewrite Hin, filter_In. split; [exact Hn |].
    unfold matchesQuery. rewrite toLowerCase_empty.
    now rewrite includes_empty.
Qed.

Lemma view_filter_correct_witness :
  (forall n,
      In n (filteredNotes Reference.toLowerCase Reference.localeCompare
              Sample.shelf "eggs" TITLE_ASC)
      <-> In n Sample.shelf
          /\ (occursIgnoringCase Reference.toLowerCase "eggs" (title n)
              \/ occursIgnoringCase Reference.toLowerCase "eggs" (content n)))
  /\ (forall n, In n Sample.shelf ->
                In n (filteredNotes Reference.toLowerCase Reference.localeCompare
                        Sample.shelf "" TITLE_ASC)).
Proof.
  apply (view_filter_correct Reference.toLowerCase Reference.localeCompare).
  reflexivity.
Defined.

(** C6. In the projected view no unpinned note stands before a pinned one,
    two notes of the same partition stand in the order of the chosen sort
    key, and the notes that tie with a given note (same partition, equal
    key) stand in the order they have in the collection.
    ([localeCompare] is a consistent comparator.) *)
Theorem view_pinned_first_sorted_stable
    (toLowerCase : string -> string) (localeCompare : string -> string -> Z)
    (localeCompare_antisym :
       forall a b, Z.sgn (localeCompare b a) = - Z.sgn (localeCompare a b))
    (localeCompare_trans :
       forall a b c,
         localeCompare a b <= 0 -> localeCompare b c <= 0 ->
         localeCompare a c <= 0)
    (l : list Note) (q : string) (by_ : SortOption) :
  (forall l1 a l2 b l3,
      filteredNotes toLowerCase localeCompare l q by_ = l1 ++ a :: l2 ++ b :: l3 ->
      (isPinned b = true -> isPinned a = true)
      /\ (isPinned a = isPinned b -> keyOrder localeCompare by_ a b))
  /\ (forall x,
        filter (tied localeCompare by_ x)
               (filteredNotes toLowerCase localeCompare l q by_)
        = filter (tied localeCompare by_ x)
                 (filter (matchesQuery toLowerCase q) l)).
Proof.
  split.
  - intros l1 a l2 b l3 E. apply compareNotes_order.
    unfold filteredNotes in E.
    eapply Array_sort_ordered; [| | exact E].
    + intros u v. now apply compareNotes_total.
    + intros u v t. now apply compareNotes_trans.
  - intros x. unfold filteredNotes. apply Array_sort_class.
    intros u v. now apply tied_compareNotes.
Qed.

Lemma view_pinned_first_sorted_stable_witness :
  (forall l1 a l2 b l3,
      filteredNotes Reference.toLowerCase Reference.localeCompare
        Sample.shelf "" MODIFIED_DESC = l1 ++ a :: l2 ++ b :: l3 ->
      (isPinned b = true -> isPinned a = true)
      /\ (isPinned a = isPinned b ->
          keyOrder Reference.localeCompare MODIFIED_DESC a b))
  /\ (forall x,
        filter (tied Reference.localeCompare MODIFIED_DESC x)
               (filteredNotes Reference.toLowerCase Reference.localeCompare
                  Sample.shelf "" MODIFIED_DESC)
        = filter (tied Reference.localeCompare MODIFIED_DESC x)
                 (filter (matchesQuery Reference.toLowerCase "") Sample.shelf)).
Proof.
  apply (view_pinned_first_sorted_stable
           Reference.toLowerCase Reference.localeCompare).
  - exact Reference_localeCompare_antisym.
  - exact Reference_localeCompare_trans.
Defined.

(** The scenarios of the view: a search narrows the view to the note that
    holds the word; notes last modified at the same time keep the order of
    the collection, after the pinned note. *)
Example view_scenarios :
  ids (filteredNotes Reference.toLowerCase Reference.localeCompare
         [Sample.noteB; Sample.noteA] "eggs" TITLE_ASC) = ["a"]
  /\ ids (filteredNotes Reference.toLowerCase Reference.localeCompare
            Sample.shelf "" MODIFIED_DESC) = ["b"; "a"; "d"]
  /\ ids (filteredNotes Reference.toLowerCase Reference.localeCompare
            Sample.shelf "EGGS" CREATED_ASC) = ["d"; "a"].
Proof. repeat split. Qed.

(** ** Identifiers *)

Lemma ids_filter_NoDup (keep : Note -> bool) (l : list Note) :
  NoDup (ids l) -> NoDup (ids (filter keep l)).
Proof.
  unfold ids. induction l as [| n l IH]; simpl; intros H; [constructor |].
  apply NoDup_cons_iff in H. destruct H as [Hn Hl].
  destruct (keep n); simpl; [| now apply IH].
  constructor; [| now apply IH].
  intros Hin. apply Hn. apply in_map_iff in Hin.
  destruct Hin as (m & Hm & Hin). apply filter_In in Hin.
  apply in_map_iff. exists m. tauto.
Qed.

Lemma ids_togglePin (target : string) (l : list Note) :
  ids (map (fun n => if (id n =? target)%string then flipPin n else n) l) = ids l.
Proof.
  unfold ids. rewrite map_map. apply map_ext.
  intros n. now destruct (id n =? target)%string.
Qed.

Lemma ids_updateNotes (cur : string) (updates : PartialNote) :
  p_id updates = None ->
  forall (l : list Note) (c : Clock),
    ids (fst (updateNotes cur updates c l)) = ids l.
Proof.
  intros Hid. induction l as [| n l IH]; intros c; simpl; [reflexivity |].
  destruct (id n =? cur)%string.
  - specialize (IH (mkClock (S (elapsed c)) (reading c))).
    destruct (updateNotes cur updates (mkClock (S (elapsed c)) (reading c)) l).
    simpl in *. now rewrite IH, Hid.
  - specialize (IH c). destruct (updateNotes cur updates c l).
    simpl in *. now rewrite IH.
Qed.

Lemma ids_handleUpdateNote (updates : PartialNote) (w : World) :
  p_id updates = None ->
  ids (notes (app (handleUpdateNote updates w))) = ids (notes (app w)).
Proof.
  intros Hid. unfold handleUpdateNote.
  destruct (currentNoteId (app w)) as [cur |]; simpl; [| reflexivity].
  destruct (cur =? "")%string; simpl; [reflexivity |].
  pose proof (ids_updateNotes cur updates Hid (notes (app w)) (clock w)) as H.
  destruct (updateNotes cur updates (clock w) (notes (app w))). exact H.
Qed.

Section Identifiers.
Variable JSON_parse : string -> option JsonValue.
Variable asNote : JsonValue -> Note.

Lemma dispatch_keeps_ids_distinct (i : Intent) (w : World) :
  NoDup (ids (notes (app w))) ->
  keepsIdsApart JSON_parse asNote i w ->
  NoDup (ids (notes (app (dispatch JSON_parse asNote i w)))).
Proof.
  intros Hw Hi. destruct i as [uuid | t | updates | t | t | ok | file]; simpl in *.
  - constructor; assumption.
  - exact Hw.
  - now rewrite ids_handleUpdateNote.
  - now apply ids_filter_NoDup.
  - now rewrite ids_togglePin.
  - destruct ok; simpl; [constructor | exact Hw].
  - destruct file as [text |]; simpl; [| exact Hw].
    destruct (JSON_parse text) as [v |]; simpl; [| exact Hw].
    destruct v; simpl; try exact Hw.
    destruct Hi as [Hnew Hfresh].
    unfold ids in *. rewrite map_app.
    apply NoDup_app; assumption.
Qed.
End Identifiers.

(** C1 (amended). Along any sequence of create, note selection, update,
    delete, togglePin, clearAll and import, the ids of the collection stay
    pairwise distinct if they were so at the start, provided every created
    id is new to the collection, no update carries an [id] key, and every
    imported array holds records whose ids differ from one another and from
    the ids already in the collection. *)
Theorem ids_stay_distinct
    (JSON_parse : string -> option JsonValue) (asNote : JsonValue -> Note)
    (is_ : list Intent) :
  forall w : World,
    NoDup (ids (notes (app w))) ->
    allKeepIdsApart JSON_parse asNote is_ w ->
    NoDup (ids (notes (app (run JSON_parse asNote is_ w)))).
Proof.
  induction is_ as [| i rest IH]; intros w Hw Hok; simpl in *; [exact Hw |].
  destruct Hok as [Hi Hrest].
  apply IH; [| exact Hrest].
  now apply dispatch_keeps_ids_distinct.
Qed.

Lemma ids_stay_distinct_witness :
  NoDup (ids (notes (app Sample.worldA)))
  /\ NoDup (ids (notes (app (run Reference.JSON_parse Reference.asNote
                              Sample.session Sample.worldA)))).
Proof.
  assert (Hstart : NoDup (ids (notes (app Sample.worldA)))).
  { simpl. constructor; [intros [] | constructor]. }
  split; [exact Hstart |].
  apply (ids_stay_distinct Reference.JSON_parse Reference.asNote
           Sample.session Sample.worldA Hstart).
  vm_compute.
  repeat split; try (intros [H | []]; discriminate H);
    try (intros k [H | []] [H' | [H' | []]]; subst; discriminate H').
  - constructor; [intros [] | constructor].
Defined.

(** C1, as stated, fails: importing a backup that holds a record with the id
    of a note already in the collection yields two notes of that id. *)
Lemma import_repeats_an_id :
  ids (notes (app Sample.worldA)) = ["a"]
  /\ ids (notes (app (run Reference.JSON_parse Reference.asNote
                        [Import (Some Sample.backupOfA)] Sample.worldA)))
     = ["a"; "a"]
  /\ NoDup (ids (notes (app Sample.worldA)))
  /\ ~ NoDup (ids (notes (app (run Reference.JSON_parse Reference.asNote
                                [Import (Some Sample.backupOfA)] Sample.worldA)))).
Proof.
  assert (E : ids (notes (app (run Reference.JSON_parse Reference.asNote
                                 [Import (Some Sample.backupOfA)] Sample.worldA)))
              = ["a"; "a"]) by reflexivity.
  split; [reflexivity |]. split; [exact E |]. split.
  - simpl. constructor; [intros [] | constructor].
  - rewrite E. intros H. apply NoDup_cons_iff in H.
    destruct H as [H _]. apply H. now left.
Qed.

(** * Further properties of the store *)

(** ** Storage *)

Lemma getItem_setItem (key value : string) (st : Storage) (k : string) :
  getItem (setItem key value st) k
  = if (k =? key)%string then Some value else getItem st k.
Proof. reflexivity. Qed.

Lemma truthy_Some (text : string) : text <> "" -> truthy (Some text) = true.
Proof. intros H. simpl. apply String.eqb_neq in H. now rewrite H. Qed.


Lemma loadProfile_of_text
    (JSON_parse : string -> option JsonValue) (st : Storage) (text : string) :
  getItem st PROFILE_KEY = Some text -> text <> "" ->
  loadProfile JSON_parse st
  = match JSON_parse text with
    | Some v => v
    | None => JObject [("name", JString "Guest"); ("avatar", JNull)]
    end.
Proof.
  intros Hget Hne. unfold loadProfile. rewrite Hget, (truthy_Some text Hne).
  reflexivity.
Qed.

Lemma parsed_text_not_empty
    (JSON_parse : string -> option JsonValue) (text : string) (v : JsonValue) :
  JSON_parse "" = None -> JSON_parse text = Some v -> text <> "".
Proof. intros Hempty Hparse ->. congruence. Qed.

(** X1. [loadProfile] yields the default profile, name "Guest" and a null
    avatar, when the key is absent and when the stored text does not parse;
    a text that parses is returned as the value it parses to, whatever its
    shape.  ([JSON.parse] throws on the empty text.) *)
Theorem loadProfile_checks_parse_only
    (JSON_parse : string -> option JsonValue)
    (JSON_parse_empty : JSON_parse "" = None) (st : Storage) :
  (getItem st PROFILE_KEY = None ->
   loadProfile JSON_parse st = JObject [("name", JString "Guest"); ("avatar", JNull)])
  /\ (forall text,
        getItem st PROFILE_KEY = Some text -> JSON_parse text = None ->
        loadProfile JSON_parse st
        = JObject [("name", JString "Guest"); ("avatar", JNull)])
  /\ (forall text v,
        getItem st PROFILE_KEY = Some text -> JSON_parse text = Some v ->
        loadProfile JSON_parse st = v).
Proof.
  split; [| split].
  - intros Hget. unfold loadProfile. now rewrite Hget.
  - intros text Hget Hparse. unfold loadProfile. rewrite Hget. simpl.
    destruct (text =? "")%string; simpl; [reflexivity |]. now rewrite Hparse.
  - intros text v Hget Hparse.
    rewrite (loadProfile_of_text JSON_parse st text Hget).
    + now rewrite Hparse.
    + exact (parsed_text_not_empty JSON_parse text v JSON_parse_empty Hparse).
Qed.

Lemma loadProfile_checks_parse_only_witness :
  loadProfile Reference.JSON_parse emptyStorage
    = JObject [("name", JString "Guest"); ("avatar", JNull)]
  /\ loadProfile Reference.JSON_parse (Sample.storageWith PROFILE_KEY "{name")
     = JObject [("name", JString "Guest"); ("avatar", JNull)]
  /\ loadProfile Reference.JSON_parse (Sample.storageWith PROFILE_KEY "[7]")
     = JArray [JNumber 7].
Proof.
  split; [| split].
  - apply (proj1 (loadProfile_checks_parse_only Reference.JSON_parse eq_refl
                    emptyStorage)).
    reflexivity.
  - apply (proj1 (proj2 (loadProfile_checks_parse_only Reference.JSON_parse eq_refl
                           (Sample.storageWith PROFILE_KEY "{name"))) "{name");
      reflexivity.
  - apply (proj2 (proj2 (loadProfile_checks_parse_only Reference.JSON_parse eq_refl
                           (Sample.storageWith PROFILE_KEY "[7]"))) "[7]");
      reflexivity.
Defined.

(** X2. The two records of the storage do not disturb one another: after
    [saveNotes] the profile loads as before, and after [saveProfile] the
    notes load as before. *)
Theorem save_leaves_other_record
    (JSON_parse : string -> option JsonValue)
    (stringifyNotes : list Note -> string)
    (stringifyProfile : UserProfile -> string)
    (l : list Note) (p : UserProfile) (st : Storage) :
  loadProfile JSON_parse (saveNotes stringifyNotes l st) = loadProfile JSON_parse st
  /\ loadNotes JSON_parse (saveProfile stringifyProfile p st) = loadNotes JSON_parse st.
Proof. split; reflexivity. Qed.

(** X3. What [saveNotes] writes, [loadNotes] reads back: if the text written
    parses to [v], loading yields [v]; if it does not parse, loading yields
    the empty array.  ([JSON.parse] throws on the empty text.) *)
Theorem loadNotes_after_saveNotes
    (JSON_parse : string -> option JsonValue)
    (stringifyNotes : list Note -> string)
    (JSON_parse_empty : JSON_parse "" = None)
    (l : list Note) (st : Storage) :
  loadNotes JSON_parse (saveNotes stringifyNotes l st)
  = match JSON_parse (stringifyNotes l) with
    | Some v => v
    | None => JArray []
    end.
Proof.
  unfold loadNotes, saveNotes. rewrite getItem_setItem, String.eqb_refl.
  simpl. destruct (String.eqb_spec (stringifyNotes l) "") as [E | _]; simpl.
  - now rewrite E, JSON_parse_empty.
  - reflexivity.
Qed.

Lemma loadNotes_after_saveNotes_witness :
  ReferenceIO.asNotes
    (loadNotes Reference.JSON_parse
       (saveNotes ReferenceIO.stringifyNotes Saved.desk emptyStorage))
  = Saved.desk.
Proof.
  rewrite (loadNotes_after_saveNotes Reference.JSON_parse
             ReferenceIO.stringifyNotes eq_refl Saved.desk emptyStorage).
  reflexivity.
Defined.

(** ** The effects *)

(** X4. The effect on [notes] does not write an empty collection into a
    storage that holds no notes (a first run leaves no key behind); it
    writes the empty collection over a stored one (deleting the last note
    empties the stored collection); it always writes a collection that has
    notes.  It touches no other key and nothing of the application state. *)
Theorem syncNotes_guard (stringifyNotes : list Note -> string) (w : World) :
  (notes (app w) = [] ->
   truthy (getItem (localStorage w) STORAGE_KEY) = false ->
   syncNotes stringifyNotes w = w)
  /\ (notes (app w) = [] ->
      truthy (getItem (localStorage w) STORAGE_KEY) = true ->
      getItem (localStorage (syncNotes stringifyNotes w)) STORAGE_KEY
      = Some (stringifyNotes []))
  /\ (notes (app w) <> [] ->
      getItem (localStorage (syncNotes stringifyNotes w)) STORAGE_KEY
      = Some (stringifyNotes (notes (app w))))
  /\ (forall k, k <> STORAGE_KEY ->
                getItem (localStorage (syncNotes stringifyNotes w)) k
                = getItem (localStorage w) k)
  /\ app (syncNotes stringifyNotes w) = app w.
Proof.
  unfold syncNotes. change "notepad_pro_notes"%string with STORAGE_KEY.
  repeat apply conj.
  - intros -> ->. reflexivity.
  - intros E ->. rewrite orb_true_r, E. reflexivity.
  - intros Hne. destruct (notes (app w)) as [| n l]; [contradiction |].
    reflexivity.
  - intros k Hk. apply String.eqb_neq in Hk.
    destruct ((0 <? List.length (notes (app w)))%nat
              || truthy (getItem (localStorage w) STORAGE_KEY)); [| reflexivity].
    simpl. unfold saveNotes. now rewrite getItem_setItem, Hk.
  - now destruct ((0 <? List.length (notes (app w)))%nat
                  || truthy (getItem (localStorage w) STORAGE_KEY)).
Qed.


(** X5. A confirmed [clearAll()] followed by the two effects leaves the
    notes key absent, but the profile key, just removed, holds the profile
    of the reset again; every other key is as it was. *)
Theorem clearAll_then_effects
    (stringifyNotes : list Note -> string)
    (stringifyProfile : UserProfile -> string) (w : World) :
  let w' := syncProfile stringifyProfile
              (syncNotes stringifyNotes (handleClearAll true w)) in
  getItem (localStorage w') STORAGE_KEY = None
  /\ getItem (localStorage w') PROFILE_KEY
     = Some (stringifyProfile (mkUserProfile "Guest User" None))
  /\ (forall k, k <> STORAGE_KEY -> k <> PROFILE_KEY ->
                getItem (localStorage w') k = getItem (localStorage w) k).
Proof.
  cbv zeta. split; [reflexivity |]. split; [reflexivity |].
  intros k Hn Hp. apply String.eqb_neq in Hn, Hp.
  unfold syncProfile, syncNotes, handleClearAll. simpl.
  unfold saveProfile. rewrite getItem_setItem, Hp.
  unfold getItem, removeItem. now rewrite Hp, Hn.
Qed.

(** X6. The two effects write different keys, so the storage they leave is
    the same in either order. *)
Theorem effects_commute
    (stringifyNotes : list Note -> string)
    (stringifyProfile : UserProfile -> string) (w : World) (k : string) :
  getItem (localStorage (syncProfile stringifyProfile (syncNotes stringifyNotes w))) k
  = getItem (localStorage (syncNotes stringifyNotes (syncProfile stringifyProfile w))) k.
Proof.
  unfold syncProfile, syncNotes. simpl.
  change (getItem (saveProfile stringifyProfile (profile (app w)) (localStorage w))
                  "notepad_pro_notes")
    with (getItem (localStorage w) "notepad_pro_notes").
  destruct ((0 <? List.length (notes (app w)))%nat
            || truthy (getItem (localStorage w) "notepad_pro_notes")); simpl.
  - unfold saveProfile, saveNotes. rewrite !getItem_setItem.
    destruct (String.eqb_spec k PROFILE_KEY) as [-> | _]; reflexivity.
  - reflexivity.
Qed.









(** X9. A first run, with neither key in the storage, does not throw and
    starts with the empty collection and with the profile named "Guest",
    not "Guest User".  (The views read the empty array as no notes and the
    default object as the profile it spells; [trim] leaves letters in
    "Guest".) *)
Theorem Initialize_cold_start
    (JSON_parse : string -> option JsonValue)
    (asNotes : JsonValue -> list Note)
    (asUserProfile : JsonValue -> UserProfile) (trim : string -> string)
    (asNotes_empty : asNotes (JArray []) = [])
    (asUserProfile_default :
       asUserProfile (JObject [("name", JString "Guest"); ("avatar", JNull)])
       = mkUserProfile "Guest" None)
    (trim_guest : trim "Guest" <> "")
    (w : World)
    (Hnotes : getItem (localStorage w) STORAGE_KEY = None)
    (Hprofile : getItem (localStorage w) PROFILE_KEY = None) :
  exists w',
    Initialize JSON_parse asNotes asUserProfile trim w = Some w'
    /\ notes (app w') = []
    /\ profile (app w') = mkUserProfile "Guest" None.
Proof.
  unfold Initialize, loadNotes, loadProfile. rewrite Hnotes, Hprofile. simpl.
  apply String.eqb_neq in trim_guest. rewrite trim_guest.
  eexists. split; [reflexivity |]. simpl.
  now rewrite asNotes_empty, asUserProfile_default.
Qed.

Lemma Initialize_cold_start_witness :
  exists w',
    Initialize Reference.JSON_parse ReferenceIO.asNotes
      ReferenceIO.asUserProfile ReferenceIO.trim
      (mkWorld initialState emptyStorage (Sample.steadyClock 20) [])
    = Some w'
    /\ notes (app w') = []
    /\ profile (app w') = mkUserProfile "Guest" None.
Proof.
  apply (Initialize_cold_start Reference.JSON_parse ReferenceIO.asNotes
           ReferenceIO.asUserProfile ReferenceIO.trim).
  - reflexivity.
  - reflexivity.
  - vm_compute. discriminate.
  - reflexivity.
  - reflexivity.
Defined.

(** X10. The profile survives a restart unless its name is blank: when the
    text written for the profile parses back to an object that holds the
    name as a string and reads back as the profile, the next session starts,
    with the same profile if its name has a character other than blanks and
    with the name "Guest User" and the same avatar otherwise.
    ([JSON.parse] throws on the empty text.) *)
Theorem profile_survives_restart
    (JSON_parse : string -> option JsonValue)
    (stringifyProfile : UserProfile -> string)
    (asNotes : JsonValue -> list Note)
    (asUserProfile : JsonValue -> UserProfile) (trim : string -> string)
    (JSON_parse_empty : JSON_parse "" = None)
    (w next : World) (v : JsonValue)
    (Hparse : JSON_parse (stringifyProfile (profile (app w))) = Some v)
    (Hname : propertyOf "name" v = Some (JString (name (profile (app w)))))
    (Hview : asUserProfile v = profile (app w))
    (Hnext : localStorage next = localStorage (syncProfile stringifyProfile w)) :
  exists w',
    Initialize JSON_parse asNotes asUserProfile trim next = Some w'
    /\ profile (app w')
       = if (name (profile (app w)) =? "")%string
            || (trim (name (profile (app w))) =? "")%string
         then mkUserProfile "Guest User" (avatar (profile (app w)))
         else profile (app w).
Proof.
  unfold Initialize. rewrite Hnext.
  rewrite (loadProfile_of_text JSON_parse _
             (stringifyProfile (profile (app w)))).
  - rewrite Hparse.
    destruct v as [| b | z | s | items | ms]; try discriminate Hname.
    unfold checkName. rewrite Hname. cbn [falsy].
    destruct (name (profile (app w)) =? "")%string; cbn [orb].
    + eexists. split; [reflexivity |]. simpl. now rewrite Hview.
    + destruct (trim (name (profile (app w))) =? "")%string;
        eexists; (split; [reflexivity |]); simpl; now rewrite Hview.
  - unfold syncProfile, saveProfile. simpl.
    now rewrite getItem_setItem, String.eqb_refl.
  - exact (parsed_text_not_empty JSON_parse _ v JSON_parse_empty Hparse).
Qed.

Lemma profile_survives_restart_witness :
  exists w',
    Initialize Reference.JSON_parse ReferenceIO.asNotes
      ReferenceIO.asUserProfile ReferenceIO.trim
      (mkWorld initialState
         (localStorage (syncProfile ReferenceIO.stringifyProfile Saved.blankNamed))
         (Sample.steadyClock 20) [])
    = Some w'
    /\ profile (app w')
       = if (name (profile (app Saved.blankNamed)) =? "")%string
            || (ReferenceIO.trim (name (profile (app Saved.blankNamed))) =? "")%string
         then mkUserProfile "Guest User" (avatar (profile (app Saved.blankNamed)))
         else profile (app Saved.blankNamed).
Proof.
  apply (profile_survives_restart Reference.JSON_parse
           ReferenceIO.stringifyProfile ReferenceIO.asNotes
           ReferenceIO.asUserProfile ReferenceIO.trim eq_refl
           Saved.blankNamed _
           (JObject [("name", JString "  ");
                     ("avatar", JString "data:image/png;base64,AA==")])).
  - reflexivity.
  - reflexivity.
  - reflexivity.
  - reflexivity.
Defined.

(** ** Selection, deletion, pinning *)

(** X11. [delete(id)] removes exactly the notes of that id: a note is in the
    collection afterwards when it was there before and has another id; when
    no note has the id the collection is unchanged; in every case the list
    view is shown and no note is selected. *)
Theorem delete_removes_exactly (target : string) (w : World) :
  (forall n, In n (notes (app (handleDeleteNote target w)))
             <-> In n (notes (app w)) /\ id n <> target)
  /\ ((forall n, In n (notes (app w)) -> id n <> target) ->
      notes (app (handleDeleteNote target w)) = notes (app w))
  /\ viewState (app (handleDeleteNote target w)) = View_list
  /\ currentNoteId (app (handleDeleteNote target w)) = None.
Proof.
  unfold handleDeleteNote, withApp; simpl. repeat apply conj; try reflexivity.
  - intros n. rewrite filter_In, negb_true_iff, String.eqb_neq. reflexivity.
  - intros Habs. induction (notes (app w)) as [| n l IH]; simpl; [reflexivity |].
    destruct (String.eqb_spec (id n) target) as [E | _]; simpl.
    + exfalso. apply (Habs n); [now left | exact E].
    + rewrite IH; [reflexivity |]. intros m Hm. apply Habs. now right.
Qed.

(** X12. Deleting leaves nothing selected, so an edit that arrives after a
    deletion changes nothing, the clock included; and deleting the same id
    again changes nothing more. *)
Theorem after_delete_nothing_to_edit
    (target : string) (updates : PartialNote) (w : World) :
  handleUpdateNote updates (handleDeleteNote target w) = handleDeleteNote target w
  /\ currentNote (app (handleDeleteNote target w)) = None
  /\ handleDeleteNote target (handleDeleteNote target w) = handleDeleteNote target w.
Proof.
  split; [reflexivity |]. split; [reflexivity |].
  unfold handleDeleteNote, withApp; simpl. f_equal. unfold setCurrentNoteId,
    setViewState, setNotes; simpl. f_equal.
  induction (notes (app w)) as [| n l IH]; simpl; [reflexivity |].
  destruct (id n =? target)%string eqn:E; simpl; [exact IH |].
  now rewrite E, IH.
Qed.

(** X13. The note the editor shows is a note of the collection that carries
    the selected id, and the editor has no note to show exactly when nothing
    is selected or no note carries the selected id. *)
Theorem currentNote_is_selected (s : AppState) :
  (forall n, currentNote s = Some n ->
             In n (notes s) /\ currentNoteId s = Some (id n))
  /\ (currentNote s = None <->
      currentNoteId s = None
      \/ exists cur, currentNoteId s = Some cur
                     /\ forall n, In n (notes s) -> id n <> cur).
Proof.
  unfold currentNote. destruct (currentNoteId s) as [cur |]; split.
  - intros n H. apply find_some in H. destruct H as [Hin E].
    apply String.eqb_eq in E. now subst.
  - split.
    + intros H. right. exists cur. split; [reflexivity |].
      intros n Hn. apply String.eqb_neq. exact (find_none _ _ H n Hn).
    + intros [H | (c & Hc & Habs)]; [discriminate |].
      injection Hc as <-.
      induction (notes s) as [| n l IH]; simpl; [reflexivity |].
      destruct (String.eqb_spec (id n) cur) as [E | _].
      * exfalso. apply (Habs n); [now left | exact E].
      * apply IH. intros m Hm. apply Habs. now right.
  - discriminate.
  - split; [now left | reflexivity].
Qed.

(** X14. After [create()] the editor is open on the note just created, also
    when the generated id repeats one of the collection. *)
Theorem create_opens_new_note (uuid : string) (w : World) :
  viewState (app (handleCreateNote uuid w)) = View_editor
  /\ currentNote (app (handleCreateNote uuid w))
     = hd_error (notes (app (handleCreateNote uuid w)))
  /\ option_map id (currentNote (app (handleCreateNote uuid w))) = Some uuid.
Proof.
  unfold currentNote, handleCreateNote; simpl.
  rewrite String.eqb_refl. repeat split.
Qed.

(** X15. Creating a note and deleting it again gives back the collection as
    it was, provided the generated id was new to it. *)
Theorem create_then_delete (uuid : string) (w : World)
    (Hfresh : ~ In uuid (ids (notes (app w)))) :
  notes (app (handleDeleteNote uuid (handleCreateNote uuid w))) = notes (app w).
Proof.
  unfold handleDeleteNote, handleCreateNote, withApp; simpl.
  rewrite String.eqb_refl. simpl.
  induction (notes (app w)) as [| n l IH]; simpl; [reflexivity |].
  destruct (String.eqb_spec (id n) uuid) as [E | _]; simpl.
  - exfalso. apply Hfresh. left. exact E.
  - rewrite IH; [reflexivity |]. intros Hin. apply Hfresh. now right.
Qed.

Lemma create_then_delete_witness :
  ~ In "n1" (ids (notes (app Sample.worldA)))
  /\ notes (app (handleDeleteNote "n1" (handleCreateNote "n1" Sample.worldA)))
     = notes (app Sample.worldA).
Proof.
  assert (H : ~ In "n1" (ids (notes (app Sample.worldA)))).
  { simpl. intros [E | []]. discriminate E. }
  split; [exact H |].
  apply (create_then_delete "n1" Sample.worldA H).
Defined.

Lemma flipPin_involutive (n : Note) : flipPin (flipPin n) = n.
Proof. destruct n as [i t c p ca lm co]. unfold flipPin; simpl. now rewrite negb_involutive. Qed.

(** X16. Toggling the pin of the same id twice gives back every note as it
    was. *)
Theorem togglePin_twice (target : string) (w : World) :
  notes (app (handleTogglePin target (handleTogglePin target w))) = notes (app w).
Proof.
  unfold handleTogglePin, withApp; simpl. rewrite map_map.
  rewrite <- (map_id (notes (app w))) at 2. apply map_ext.
  intros n. destruct (id n =? target)%string eqn:E.
  - change (id (flipPin n)) with (id n). now rewrite E, flipPin_involutive.
  - now rewrite E.
Qed.

(** ** Export, import, sharing *)

(** X17. [export()] offers a file exactly when the collection has notes: on
    an empty collection it says so and offers nothing; otherwise it offers
    the indented text of the collection under the name
    [notes_backup_<date>.json] and says nothing.  The application state is
    untouched either way. *)
Theorem export_needs_notes
    (stringifyNotesIndented : list Note -> string) (today : string) (w : World) :
  (snd (handleExport stringifyNotesIndented today w) = None
   <-> notes (app w) = [])
  /\ (notes (app w) = [] ->
      fst (handleExport stringifyNotesIndented today w)
      = alert "No notes to export!" w)
  /\ (notes (app w) <> [] ->
      handleExport stringifyNotesIndented today w
      = (w, Some (("notes_backup_" ++ today ++ ".json")%string,
                  stringifyNotesIndented (notes (app w)))))
  /\ app (fst (handleExport stringifyNotesIndented today w)) = app w.
Proof.
  unfold handleExport. destruct (notes (app w)) as [| n l]; simpl.
  - repeat split; auto. intros H. now contradiction H.
  - repeat split; auto; discriminate.
Qed.

(** X18. Importing what was just exported puts a second copy of the
    collection in front of it: when the exported text parses to an array
    whose records read back as the notes, the collection after the import
    is the old one twice over, and the import reports success. *)
Theorem import_of_export
    (JSON_parse : string -> option JsonValue) (asNote : JsonValue -> Note)
    (stringifyNotesIndented : list Note -> string)
    (today : string) (w : World) (items : list JsonValue)
    (Hnotes : notes (app w) <> [])
    (Hparse : JSON_parse (stringifyNotesIndented (notes (app w)))
              = Some (JArray items))
    (Hview : map asNote items = notes (app w)) :
  exists fileName data,
    handleExport stringifyNotesIndented today w = (w, Some (fileName, data))
    /\ notes (app (handleImport JSON_parse asNote (Some data) w))
       = notes (app w) ++ notes (app w)
    /\ signals "Notes imported successfully!" w
         (handleImport JSON_parse asNote (Some data) w).
Proof.
  exists ("notes_backup_" ++ today ++ ".json")%string,
         (stringifyNotesIndented (notes (app w))).
  split.
  - unfold handleExport. destruct (notes (app w)); [contradiction | reflexivity].
  - unfold handleImport, signals. rewrite Hparse. simpl. now rewrite Hview.
Qed.

Lemma import_of_export_witness :
  exists fileName data,
    handleExport ReferenceIO.stringifyNotesIndented "2024_05_01" Saved.deskWorld
    = (Saved.deskWorld, Some (fileName, data))
    /\ notes (app (handleImport Reference.JSON_parse Reference.asNote
                     (Some data) Saved.deskWorld))
       = notes (app Saved.deskWorld) ++ notes (app Saved.deskWorld)
    /\ signals "Notes imported successfully!" Saved.deskWorld
         (handleImport Reference.JSON_parse Reference.asNote
            (Some data) Saved.deskWorld).
Proof.
  apply (import_of_export Reference.JSON_parse Reference.asNote
           ReferenceIO.stringifyNotesIndented "2024_05_01" Saved.deskWorld
           (map (fun n =>
                   JObject
                     ([("id", JString (id n)); ("title", JString (title n));
                       ("content", JString (content n));
                       ("isPinned", JBool (isPinned n));
                       ("createdAt", JNumber (createdAt n));
                       ("lastModified", JNumber (lastModified n))]
                      ++ match color n with
                         | Some c => [("color", JString c)]
                         | None => []
                         end))
                Saved.desk)).
  - discriminate.
  - reflexivity.
  - reflexivity.
Defined.

(** X19. Sharing through the platform never carries an empty title: an
    untitled note is shared as "Untitled Note", a titled one under its
    title, with the content as text, and nothing is said to the user.  The
    clipboard fallback tells the user and writes title and content two line
    breaks apart, with no stand-in for an empty title.  Neither path changes
    the application state. *)
Theorem share_title_never_empty (note : Note) (w : World) :
  (title note = "" ->
   handleShare true note w = (w, NativeShare "Untitled Note" (content note)))
  /\ (title note <> "" ->
      handleShare true note w = (w, NativeShare (title note) (content note)))
  /\ (forall t x, snd (handleShare true note w) = NativeShare t x -> t <> "")
  /\ handleShare false note w
     = (alert "Content copied to clipboard." w,
        ClipboardWrite (title note ++ lineBreak ++ lineBreak ++ content note)%string)
  /\ app (fst (handleShare false note w)) = app w.
Proof.
  unfold handleShare. repeat apply conj; try reflexivity.
  - intros ->. reflexivity.
  - intros H. apply String.eqb_neq in H. now rewrite H.
  - intros t x. simpl.
    destruct (String.eqb_spec (title note) "") as [E | E];
      intros H; injection H as <- _; [discriminate | exact E].
Qed.

Lemma share_title_never_empty_witness :
  handleShare true (mkNote "u" "" "body" false 1 1 None) Sample.worldA
    = (Sample.worldA, NativeShare "Untitled Note" "body")
  /\ handleShare true Sample.noteA Sample.worldA
     = (Sample.worldA, NativeShare "Groceries" "milk, eggs").
Proof.
  split.
  - apply (proj1 (share_title_never_empty
                    (mkNote "u" "" "body" false 1 1 None) Sample.worldA)).
    reflexivity.
  - apply (proj1 (proj2 (share_title_never_empty Sample.noteA Sample.worldA))).
    discriminate.
Defined.

(** X20. An edit that follows [create()] changes the new note and no
    other: when the generated id is not empty and is new to the collection,
    the collection afterwards is the edited new note, stamped with the third
    reading of the clock, in front of the old collection as it was. *)
Theorem edit_after_create
    (uuid : string) (updates : PartialNote) (w : World)
    (Hne : uuid <> "")
    (Hfresh : ~ In uuid (ids (notes (app w)))) :
  notes (app (handleUpdateNote updates (handleCreateNote uuid w)))
  = applyUpdates
      (mkNote uuid "" "" false
              (reading (clock w) (elapsed (clock w)))
              (reading (clock w) (S (elapsed (clock w))))
              (Some "bg-white"))
      updates
      (reading (clock w) (S (S (elapsed (clock w)))))
    :: notes (app w).
Proof.
  assert (Hsel : currentNoteId (app (handleCreateNote uuid w)) = Some uuid)
    by reflexivity.
  destruct (handleUpdateNote_selected updates _ uuid Hsel Hne) as [Hn _].
  rewrite Hn. simpl. rewrite String.eqb_refl.
  rewrite updateNotes_absent; [reflexivity |].
  intros n Hin E. apply Hfresh. unfold ids. apply in_map_iff. now exists n.
Qed.

Lemma edit_after_create_witness :
  notes (app (handleUpdateNote Sample.retitle
                (handleCreateNote "n1" (Sample.world [Sample.noteA] Saved.risingClock))))
  = [ mkNote "n1" "Food" "" false 10 12 (Some "bg-white"); Sample.noteA ].
Proof.
  rewrite (edit_after_create "n1" Sample.retitle
             (Sample.world [Sample.noteA] Saved.risingClock)).
  - reflexivity.
  - discriminate.
  - simpl. intros [E | []]. discriminate E.
Defined.

(** ** What the handlers leave alone *)

Section Frames.
Variable JSON_parse : string -> option JsonValue.
Variable asNote : JsonValue -> Note.

Lemma dispatch_clock (i : Intent) (w : World) :
  reading (clock (dispatch JSON_parse asNote i w)) = reading (clock w)
  /\ (elapsed (clock w) <= elapsed (clock (dispatch JSON_parse asNote i w)))%nat.
Proof.
  destruct i as [uuid | t | updates | t | t | ok | file]; simpl;
    try (split; [reflexivity | lia]).
  - unfold handleUpdateNote.
    destruct (currentNoteId (app w)) as [cur |]; simpl; [| split; auto].
    destruct (cur =? "")%string; simpl; [split; auto |].
    destruct (updateNotes_spec cur updates (notes (app w)) (clock w))
      as (Hr & Hle & _).
    destruct (updateNotes cur updates (clock w) (notes (app w))); simpl in *.
    split; assumption.
  - destruct ok; simpl; split; auto.
  - destruct file as [text |]; simpl; [| split; auto].
    destruct (JSON_parse text) as [[] |]; simpl; split; auto.
Qed.

(** X21. No handler writes to the storage, and only a confirmed reset
    removes from it: after any other intent every key holds what it held.
    Only [create] and [update] read the clock. *)
Theorem handlers_leave_storage (i : Intent) (w : World) :
  (i <> ClearAll true -> localStorage (dispatch JSON_parse asNote i w) = localStorage w)
  /\ (forall k, getItem (localStorage (dispatch JSON_parse asNote i w)) k = None
                \/ getItem (localStorage (dispatch JSON_parse asNote i w)) k
                   = getItem (localStorage w) k)
  /\ (match i with
      | Create _ | Update _ => True
      | _ => clock (dispatch JSON_parse asNote i w) = clock w
      end).
Proof.
  split; [| split].
  - intros Hi.
    destruct i as [uuid | t | updates | t | t | ok | file]; simpl; try reflexivity.
    + unfold handleUpdateNote.
      destruct (currentNoteId (app w)) as [cur |]; simpl; [| reflexivity].
      destruct (cur =? "")%string; simpl; [reflexivity |].
      now destruct (updateNotes cur updates (clock w) (notes (app w))).
    + destruct ok; [contradiction | reflexivity].
    + destruct file as [text |]; simpl; [| reflexivity].
      now destruct (JSON_parse text) as [[] |].
  - intros k.
    destruct i as [uuid | t | updates | t | t | ok | file]; simpl; auto.
    + right. unfold handleUpdateNote.
      destruct (currentNoteId (app w)) as [cur |]; simpl; [| reflexivity].
      destruct (cur =? "")%string; simpl; [reflexivity |].
      now destruct (updateNotes cur updates (clock w) (notes (app w))).
    + destruct ok; simpl; [| now right].
      unfold getItem, removeItem.
      destruct (k =? PROFILE_KEY)%string; [now left |].
      destruct (k =? STORAGE_KEY)%string; [now left | now right].
    + right. destruct file as [text |]; simpl; [| reflexivity].
      now destruct (JSON_parse text) as [[] |].
  - destruct i as [uuid | t | updates | t | t | ok | file]; simpl; auto.
    + now destruct ok.
    + destruct file as [text |]; simpl; [| reflexivity].
      now destruct (JSON_parse text) as [[] |].
Qed.
End Frames.

(** ** Timestamps *)

Lemma Forall2_In_r {A B : Type} (R : A -> B -> Prop) (l : list A) (l' : list B) :
  Forall2 R l l' -> forall b, In b l' -> exists a, In a l /\ R a b.
Proof.
  induction 1 as [| a b l l' Hab _ IH]; intros x Hx; [contradiction |].
  destruct Hx as [<- | Hx].
  - exists a. split; [now left | exact Hab].
  - destruct (IH x Hx) as (a' & Ha' & HR). exists a'. split; [now right | exact HR].
Qed.

Lemma timestampsOrdered_later (l : list Note) (c c' : Clock) :
  clockMonotone c -> reading c' = reading c ->
  (elapsed c <= elapsed c')%nat ->
  (forall n, In n l ->
             createdAt n <= lastModified n
             /\ lastModified n <= reading c (elapsed c)) ->
  forall n, In n l ->
            createdAt n <= lastModified n
            /\ lastModified n <= reading c' (elapsed c').
Proof.
  intros Hmono Hr Hle Hord n Hn. destruct (Hord n Hn) as [H1 H2].
  split; [exact H1 |]. rewrite Hr.
  pose proof (Hmono _ _ Hle). lia.
Qed.

Lemma updateNotes_ordered (cur : string) (updates : PartialNote)
    (l : list Note) (c : Clock) :
  clockMonotone c -> p_createdAt updates = None ->
  (forall n, In n l ->
             createdAt n <= lastModified n
             /\ lastModified n <= reading c (elapsed c)) ->
  forall n', In n' (fst (updateNotes cur updates c l)) ->
             createdAt n' <= lastModified n'
             /\ lastModified n'
                <= reading c (elapsed (snd (updateNotes cur updates c l))).
Proof.
  intros Hmono Hca Hord n' Hn'.
  destruct (updateNotes_spec cur updates l c) as (_ & Hle & Hall).
  destruct (Forall2_In_r _ _ _ Hall n' Hn') as (n & Hn & Hed).
  destruct (Hord n Hn) as [H1 H2]. unfold editedBy in Hed.
  destruct (id n =? cur)%string.
  - destruct Hed as (k & [Hk1 Hk2] & ->).
    rewrite applyUpdates_createdAt, applyUpdates_lastModified by exact Hca.
    pose proof (Hmono _ _ Hk1).
    pose proof (Hmono k (elapsed (snd (updateNotes cur updates c l)))
                  ltac:(lia)).
    lia.
  - subst n'. pose proof (Hmono _ _ Hle). lia.
Qed.

Section Timestamps.
Variable JSON_parse : string -> option JsonValue.
Variable asNote : JsonValue -> Note.

Lemma dispatch_keeps_timestamps_ordered (i : Intent) (w : World) :
  clockMonotone (clock w) -> timestampsOrdered w ->
  keepsTimestampsOrdered JSON_parse asNote i w ->
  timestampsOrdered (dispatch JSON_parse asNote i w).
Proof.
  intros Hmono Hord Hi.
  destruct i as [uuid | t | updates | t | t | ok | file]; simpl in *.
  - intros n [<- | Hn]; simpl.
    + pose proof (Hmono (elapsed (clock w)) (S (elapsed (clock w))) ltac:(lia)).
      pose proof (Hmono (S (elapsed (clock w))) (S (S (elapsed (clock w))))
                    ltac:(lia)).
      lia.
    + destruct (Hord n Hn) as [H1 H2].
      pose proof (Hmono (elapsed (clock w)) (S (S (elapsed (clock w))))
                    ltac:(lia)).
      lia.
  - exact Hord.
  - unfold handleUpdateNote.
    destruct (currentNoteId (app w)) as [cur |]; simpl; [| exact Hord].
    destruct (cur =? "")%string; simpl; [exact Hord |].
    pose proof (updateNotes_ordered cur updates (notes (app w)) (clock w)
                  Hmono Hi Hord) as H.
    destruct (updateNotes_spec cur updates (notes (app w)) (clock w))
      as (Hr & _ & _).
    destruct (updateNotes cur updates (clock w) (notes (app w))) as [l c].
    simpl in *. intros n Hn. simpl in *. rewrite Hr. now apply H.
  - intros n Hn. simpl in Hn. apply filter_In in Hn. now apply Hord.
  - intros n' Hn'. simpl in Hn'. apply in_map_iff in Hn'.
    destruct Hn' as (n & <- & Hn). destruct (Hord n Hn) as [H1 H2].
    now destruct (id n =? t)%string.
  - destruct ok; [intros n [] | exact Hord].
  - destruct file as [text |]; simpl; [| exact Hord].
    destruct (JSON_parse text) as [v |]; [| exact Hord].
    destruct v; try exact Hord.
    intros n Hn. simpl in Hn. apply in_app_or in Hn.
    destruct Hn as [Hn | Hn]; [now apply Hi | now apply Hord].
Qed.
End Timestamps.

(** X22. Under a clock that never goes back, [createdAt <= lastModified]
    holds of every note, with [lastModified] never ahead of the clock, all
    along a sequence of intents, if it holds at the start, no edit carries a
    [createdAt] key and every imported record satisfies it. *)
Theorem timestamps_stay_ordered
    (JSON_parse : string -> option JsonValue) (asNote : JsonValue -> Note)
    (is_ : list Intent) :
  forall w : World,
    clockMonotone (clock w) -> timestampsOrdered w ->
    allKeepTimestampsOrdered JSON_parse asNote is_ w ->
    timestampsOrdered (run JSON_parse asNote is_ w).
Proof.
  induction is_ as [| i rest IH]; intros w Hmono Hord Hok; simpl in *;
    [exact Hord |].
  destruct Hok as [Hi Hrest].
  apply IH; [| now apply dispatch_keeps_timestamps_ordered | exact Hrest].
  intros a b Hab.
  rewrite (proj1 (dispatch_clock JSON_parse asNote i w)). now apply Hmono.
Qed.

Lemma risingClock_monotone : clockMonotone Saved.risingClock.
Proof.
  intros i j Hij. unfold Saved.risingClock, Sample.tickingClock.
  cbn [reading]. lia.
Qed.

Lemma timestamps_stay_ordered_witness :
  timestampsOrdered
    (run Reference.JSON_parse Reference.asNote Saved.busySession
       (Sample.world [Sample.noteA] Saved.risingClock)).
Proof.
  apply (timestamps_stay_ordered Reference.JSON_parse Reference.asNote
           Saved.busySession (Sample.world [Sample.noteA] Saved.risingClock)).
  - exact risingClock_monotone.
  - intros n [<- | []]. simpl. lia.
  - simpl. repeat split.
Defined.

(** X23. Under a clock that never goes back, an edit never moves the
    [lastModified] of a note backwards, whatever the partial set carries,
    provided no note was modified after the next reading of the clock. *)
Theorem update_never_rewinds (updates : PartialNote) (w : World)
    (Hmono : clockMonotone (clock w))
    (Hpast : forall n, In n (notes (app w)) ->
                       lastModified n <= reading (clock w) (elapsed (clock w))) :
  Forall2 (fun n n' => lastModified n <= lastModified n')
          (notes (app w)) (notes (app (handleUpdateNote updates w))).
Proof.
  assert (Hsame : Forall2 (fun n n' => lastModified n <= lastModified n')
                          (notes (app w)) (notes (app w))).
  { clear. induction (notes (app w)); constructor; [lia | assumption]. }
  unfold handleUpdateNote.
  destruct (currentNoteId (app w)) as [cur |]; simpl; [| exact Hsame].
  destruct (cur =? "")%string; simpl; [exact Hsame |].
  pose proof (updateNotes_spec cur updates (notes (app w)) (clock w))
    as (_ & _ & Hall).
  destruct (updateNotes cur updates (clock w) (notes (app w))) as [l c].
  simpl in *. clear Hsame. revert Hpast.
  induction Hall as [| n n' l0 l0' Hed _ IH]; intros Hin; constructor.
  - unfold editedBy in Hed. destruct (id n =? cur)%string.
    + destruct Hed as (k & [Hk _] & ->). rewrite applyUpdates_lastModified.
      pose proof (Hin n (or_introl eq_refl)). pose proof (Hmono _ _ Hk). lia.
    + subst. lia.
  - apply IH. intros m Hm. apply Hin. now right.
Qed.

Lemma update_never_rewinds_witness :
  Forall2 (fun n n' => lastModified n <= lastModified n')
          (notes (app Saved.editingBackdated))
          (notes (app (handleUpdateNote Sample.retitle Saved.editingBackdated))).
Proof.
  apply (update_never_rewinds Sample.retitle Saved.editingBackdated).
  - exact risingClock_monotone.
  - intros n [<- | []]. simpl. lia.
Defined.

(** ** The view, once more *)

(** X24. Sorting loses and repeats nothing: the projected view is a
    rearrangement of the notes that match the query, so it has as many
    entries as there are matches and never more than the collection. *)
Theorem view_rearranges_matches
    (toLowerCase : string -> string) (localeCompare : string -> string -> Z)
    (l : list Note) (q : string) (by_ : SortOption) :
  Permutation (filter (matchesQuery toLowerCase q) l)
              (filteredNotes toLowerCase localeCompare l q by_)
  /\ List.length (filteredNotes toLowerCase localeCompare l q by_)
     = List.length (filter (matchesQuery toLowerCase q) l)
  /\ (List.length (filteredNotes toLowerCase localeCompare l q by_)
      <= List.length l)%nat.
Proof.
  pose proof (filteredNotes_perm toLowerCase localeCompare l q by_) as Hp.
  split; [exact Hp |].
  rewrite <- (Permutation_length Hp).
  split; [reflexivity | apply filter_length_le].
Qed.
